(** * local_db: the user / submission service of [src/database/local_db.py]

    A shallow embedding of the five FastAPI handlers ([create_user],
    [get_user_by_slack], [get_user], [update_user], [submissions_count])
    together with the part of the SQLAlchemy / SQLite store they drive,
    followed by the properties of the handlers.

    Conventions of the embedding.
    - A table is the list of its rows in insertion (rowid) order.
    - An [Integer] column holds a [Z]; a nullable column holds an [option].
      The handlers take Python integers of any size, whereas the SQLite
      driver binds a statement parameter only when it fits in a signed
      64-bit integer ([fits_int64]) and raises [OverflowError] otherwise.
    - A [DateTime] is a [Z] (microseconds since the epoch).
    - [datetime.utcnow] is the wall clock of the host: the world carries the
      sequence of its readings ([clock]) and the number of readings already
      taken ([ticks]).  Nothing is assumed about the readings.
    - A handler is a computation in the monad [M]: it transforms the world
      and either returns a value or raises an exception.  The response body
      [{"user": user.__dict__}] is modelled by the column attributes of
      [user]. *)

From stdpp Require Import base option numbers list strings gmap.

Local Open Scope string_scope.
Local Open Scope Z_scope.

(** ** Data model *)

Definition datetime := Z.

(** What the SQLite driver accepts as an integer parameter of a statement:
    a signed 64-bit integer. *)
Definition fits_int64 (z : Z) : Prop := - 2 ^ 63 ≤ z ≤ 2 ^ 63 - 1.

#[global] Instance fits_int64_dec (z : Z) : Decision (fits_int64 z).
Proof. unfold fits_int64. apply _. Defined.

(** [class User(Base)], table [users]. *)
Record User := mkUser {
  user_id : Z;
  slack_id : string;
  display_name : option string;
  total_xp : option Z;
  current_streak : option Z;
  longest_streak : option Z;
  created_at : datetime;
  updated_at : datetime
}.

(** [class Submission(Base)], table [submissions]. *)
Module Submission.
Record t := mk {
  submission_id : Z;
  author_id : Z;
  created_at : datetime
}.
End Submission.

(** [class UserCreate(BaseModel)]. *)
Module UserCreate.
Record t := mk {
  slack_id : string;
  display_name : option string
}.
End UserCreate.

(** [class UserUpdate(BaseModel)].  Every field defaults to [None]; pydantic
    records which fields the request body has set.  [None] is a field the
    body omits, [Some None] a field the body sets to [null], and
    [Some (Some v)] a field the body sets to [v]. *)
Module UserUpdate.
Record t := mk {
  total_xp : option (option Z);
  current_streak : option (option Z);
  longest_streak : option (option Z);
  display_name : option (option string)
}.
End UserUpdate.

(** One item [(k, v)] of [payload.dict(exclude_unset=True)]. *)
Inductive item :=
| total_xp_item (v : option Z)
| current_streak_item (v : option Z)
| longest_streak_item (v : option Z)
| display_name_item (v : option string).

(** [payload.dict(exclude_unset=True)]: the fields the body has set, in the
    order of their declaration. *)
Definition dict_exclude_unset (payload : UserUpdate.t) : list item :=
  option_list (total_xp_item <$> UserUpdate.total_xp payload) ++
  option_list (current_streak_item <$> UserUpdate.current_streak payload) ++
  option_list (longest_streak_item <$> UserUpdate.longest_streak payload) ++
  option_list (display_name_item <$> UserUpdate.display_name payload).

(** [setattr(user, k, v)]. *)
Definition setattr (user : User) (kv : item) : User :=
  match kv with
  | total_xp_item v =>
      mkUser (user_id user) (slack_id user) (display_name user) v
        (current_streak user) (longest_streak user)
        (created_at user) (updated_at user)
  | current_streak_item v =>
      mkUser (user_id user) (slack_id user) (display_name user) (total_xp user)
        v (longest_streak user) (created_at user) (updated_at user)
  | longest_streak_item v =>
      mkUser (user_id user) (slack_id user) (display_name user) (total_xp user)
        (current_streak user) v (created_at user) (updated_at user)
  | display_name_item v =>
      mkUser (user_id user) (slack_id user) v (total_xp user)
        (current_streak user) (longest_streak user)
        (created_at user) (updated_at user)
  end.

(** [user.updated_at = now]. *)
Definition set_updated_at (user : User) (now : datetime) : User :=
  mkUser (user_id user) (slack_id user) (display_name user) (total_xp user)
    (current_streak user) (longest_streak user) (created_at user) now.

(** ** The world: database file, sessions of the running handler, wall clock

    [open_sessions] holds the sessions that the handler being run has opened
    and not closed.  A session is a local variable of its handler: see
    [end_request] for what becomes of it when the handler is left. *)

Record World := mkWorld {
  users : list User;
  submissions : list Submission.t;
  open_sessions : gset nat;
  clock : nat → datetime;
  ticks : nat
}.

Definition Session := nat.

Inductive exception :=
| HTTPException (status_code : Z) (detail : string)
| IntegrityError
| OverflowError
| StaleDataError
| InvalidRequestError.

Inductive outcome (A : Type) :=
| Return (a : A)
| Raise (e : exception).
Arguments Return {A} a.
Arguments Raise {A} e.

(** ** The monad of handlers *)

Definition M (A : Type) : Type := World → outcome A * World.

#[global] Instance M_ret : MRet M := λ A a w, (Return a, w).

#[global] Instance M_bind : MBind M := λ A B f m w,
  match m w with
  | (Return a, w') => f a w'
  | (Raise e, w') => (Raise e, w')
  end.

Definition raise {A} (e : exception) : M A := λ w, (Raise e, w).

Definition with_users (w : World) (rows : list User) : World :=
  mkWorld rows (submissions w) (open_sessions w) (clock w) (ticks w).

Definition with_open_sessions (w : World) (s : gset nat) : World :=
  mkWorld (users w) (submissions w) s (clock w) (ticks w).

(** ** Store primitives *)

(** [datetime.utcnow()]: the next reading of the wall clock. *)
Definition utcnow : M datetime := λ w,
  (Return (clock w (ticks w)),
   mkWorld (users w) (submissions w) (open_sessions w) (clock w) (S (ticks w))).

(** [session = SessionLocal()]: a new session object, bound to a local
    variable of the running handler and distinct from every session that
    handler run still has open. *)
Definition SessionLocal : M Session := λ w,
  let sid := fresh (open_sessions w) in
  (Return sid, with_open_sessions w ({[sid]} ∪ open_sessions w)).

(** [session.close()]. *)
Definition session_close (session : Session) : M unit := λ w,
  (Return tt, with_open_sessions w (open_sessions w ∖ {[session]})).

(** [SELECT ... FROM users WHERE user_id = ?]: the row with that primary
    key, if any. *)
Definition row_by_user_id (k : Z) (rows : list User) : option User :=
  head (filter (λ u, user_id u = k) rows).

(** [SELECT ... FROM users WHERE slack_id = ? LIMIT 1]: the first row with
    that [slack_id], if any. *)
Definition first_by_slack_id (s : string) (rows : list User) : option User :=
  head (filter (λ u, slack_id u = s) rows).

(** [session.query(User).get(user_id)]: the key is bound as a parameter of
    the SELECT, which the driver refuses when it does not fit. *)
Definition query_User_get (session : Session) (k : Z) : M (option User) := λ w,
  if decide (fits_int64 k) then (Return (row_by_user_id k (users w)), w)
  else (Raise OverflowError, w).

(** [session.query(User).filter_by(slack_id=slack_id).first()]. *)
Definition query_User_filter_by_slack_id_first
    (session : Session) (s : string) : M (option User) := λ w,
  (Return (first_by_slack_id s (users w)), w).

(** [session.query(Submission).filter_by(author_id=author_id).count()]: the
    author is bound as a parameter of the SELECT, which the driver refuses
    when it does not fit. *)
Definition query_Submission_filter_by_author_id_count
    (session : Session) (a : Z) : M nat := λ w,
  if decide (fits_int64 a) then
    (Return (length (filter (λ s, Submission.author_id s = a) (submissions w))), w)
  else (Raise OverflowError, w).

(** The rowid SQLite gives to the next row of [users]: 1 in an empty table,
    otherwise one more than the largest key in use. *)
Definition next_user_id (rows : list User) : Z :=
  match user_id <$> rows with
  | [] => 1
  | k :: ks => foldl Z.max k ks + 1
  end.

(** An instance a session has to flush: a transient one, built by the
    constructor [User(slack_id=..., display_name=...)], or a loaded one
    whose attributes were assigned. *)
Inductive instance :=
| transient (slack : string) (name : option string)
| dirty (user : User).

(** [session.add(user)]: attaches the instance to the session.  Instances
    are values here, so the handler hands the instance to [session_commit]
    itself and attaching leaves the world as it is. *)
Definition session_add (session : Session) (user : instance) : M unit :=
  mret tt.

(** [INSERT INTO users (...) VALUES (...)] with the column values at hand:
    [slack_id] is [unique=True], so the statement raises when the value is
    already in use, and the failed transaction is rolled back; otherwise the
    row is appended under the next key. *)
Definition insert_row (slack : string) (name : option string)
    (created updated : datetime) : M Z := λ w,
  if decide (slack ∈ slack_id <$> users w) then (Raise IntegrityError, w)
  else
    let k := next_user_id (users w) in
    (Return k,
     with_users w
       (users w ++ [mkUser k slack name (Some 0) (Some 0) (Some 0) created updated])).

(** The flush of a transient instance.  The columns the constructor left
    unset take their defaults: 0 for [total_xp], [current_streak] and
    [longest_streak], and one call of [datetime.utcnow] for [created_at] and
    another for [updated_at]; then the row is inserted. *)
Definition flush_insert (slack : string) (name : option string) : M Z :=
  created ← utcnow;
  updated ← utcnow;
  insert_row slack name created updated.

(** [UPDATE users SET ... WHERE user_id = ?] applied to one row.  The
    handler only ever assigns [display_name], [total_xp], [current_streak],
    [longest_streak] and [updated_at], so these are the columns written. *)
Definition update_row (user row : User) : User :=
  if decide (user_id row = user_id user) then
    mkUser (user_id row) (slack_id row) (display_name user) (total_xp user)
      (current_streak user) (longest_streak user) (created_at row) (updated_at user)
  else row.

(** The value an UPDATE binds for an integer column: the unit of work sets
    a column only when the value of the instance differs from the loaded
    one, and binds no parameter for NULL. *)
Definition bound_integer (loaded assigned : option Z) : list Z :=
  if decide (assigned = loaded) then [] else option_list assigned.

(** The integers the UPDATE of [user] binds, [row] being the row the
    instance was loaded from. *)
Definition bound_integers (user row : User) : list Z :=
  bound_integer (total_xp row) (total_xp user) ++
  bound_integer (current_streak row) (current_streak user) ++
  bound_integer (longest_streak row) (longest_streak user).

(** The flush of a loaded instance whose attributes were assigned.  The
    driver refuses the statement when one of the integers it binds does not
    fit; the flush then fails and nothing is written.  An UPDATE that
    matches no row makes the unit of work raise. *)
Definition flush_update (user : User) : M Z := λ w,
  match row_by_user_id (user_id user) (users w) with
  | Some row =>
      if decide (Forall fits_int64 (bound_integers user row)) then
        (Return (user_id user), with_users w (update_row user <$> users w))
      else (Raise OverflowError, w)
  | None => (Raise StaleDataError, w)
  end.

(** [session.commit()]: flush, then commit.  Returns the primary key of the
    flushed instance, which the flush stores in the instance. *)
Definition session_commit (session : Session) (user : instance) : M Z :=
  match user with
  | transient slack name => flush_insert slack name
  | dirty user => flush_update user
  end.

(** [session.refresh(user)]: reload the instance from its row, found by
    the primary key the store gave the instance. *)
Definition session_refresh (session : Session) (k : Z) : M User := λ w,
  match row_by_user_id k (users w) with
  | Some user => (Return user, w)
  | None => (Raise InvalidRequestError, w)
  end.

(** ** The handlers *)

Definition not_found : exception := HTTPException 404 "User not found".

(** [POST /users] *)
Definition create_user (payload : UserCreate.t) : M User :=
  session ← SessionLocal;
  let user := transient (UserCreate.slack_id payload) (UserCreate.display_name payload) in
  session_add session user;;
  k ← session_commit session user;
  user ← session_refresh session k;
  session_close session;;
  mret user.

(** [GET /users/slack/{slack_id}] *)
Definition get_user_by_slack (slack_id : string) : M User :=
  session ← SessionLocal;
  user ← query_User_filter_by_slack_id_first session slack_id;
  session_close session;;
  match user with
  | None => raise not_found
  | Some user => mret user
  end.

(** [GET /users/{user_id}] *)
Definition get_user (user_id : Z) : M User :=
  session ← SessionLocal;
  user ← query_User_get session user_id;
  session_close session;;
  match user with
  | None => raise not_found
  | Some user => mret user
  end.

(** [PUT /users/{user_id}] *)
Definition update_user (user_id : Z) (payload : UserUpdate.t) : M User :=
  session ← SessionLocal;
  user ← query_User_get session user_id;
  match user with
  | None =>
      session_close session;;
      raise not_found
  | Some user =>
      let data := dict_exclude_unset payload in
      let user := foldl setattr user data in
      now ← utcnow;
      let user := set_updated_at user now in
      k ← session_commit session (dirty user);
      user ← session_refresh session k;
      session_close session;;
      mret user
  end.

(** [GET /submissions/count] *)
Definition submissions_count (author_id : Z) : M nat :=
  session ← SessionLocal;
  count ← query_Submission_filter_by_author_id_count session author_id;
  session_close session;;
  mret count.

(** ** Vocabulary of the properties *)

(** The attribute assignments of [update_user], field by field: a field the
    body omits keeps the loaded value, a field the body sets takes the value
    of the body, whatever it is. *)
Definition patched (u : User) (payload : UserUpdate.t) (now : datetime) : User :=
  mkUser (user_id u) (slack_id u)
    (default (display_name u) (UserUpdate.display_name payload))
    (default (total_xp u) (UserUpdate.total_xp payload))
    (default (current_streak u) (UserUpdate.current_streak payload))
    (default (longest_streak u) (UserUpdate.longest_streak payload))
    (created_at u) now.

(** The row [create_user] inserts into [w]. *)
Definition created_row (payload : UserCreate.t) (w : World) : User :=
  mkUser (next_user_id (users w))
    (UserCreate.slack_id payload) (UserCreate.display_name payload)
    (Some 0) (Some 0) (Some 0)
    (clock w (ticks w)) (clock w (S (ticks w))).

(** The world after a collaborator has recorded the submissions [new]. *)
Definition record_submissions (new : list Submission.t) (w : World) : World :=
  mkWorld (users w) (submissions w ++ new) (open_sessions w) (clock w) (ticks w).

(** The number of rows of [rows] whose author is [a]. *)
Definition authored (a : Z) (rows : list Submission.t) : nat :=
  length (filter (λ s, Submission.author_id s = a) rows).

(** The requests the service answers. *)
Inductive request :=
| POST_users (payload : UserCreate.t)
| GET_users_slack (slack_id : string)
| GET_users (user_id : Z)
| PUT_users (user_id : Z) (payload : UserUpdate.t)
| GET_submissions_count (author_id : Z).

(** The end of a request.  [session] is a local variable of the handler
    and nothing else refers to the object: once the handler is left, by
    [return] or by an exception, the next request finds the sessions that
    were open before this one, whatever the handler did with its own. *)
Definition end_request (before after : World) : World :=
  with_open_sessions after (open_sessions before).

(** The world after a request has been answered, whether its handler
    returned or raised. *)
Definition handle (r : request) (w : World) : World :=
  end_request w
    match r with
    | POST_users payload => (create_user payload w).2
    | GET_users_slack s => (get_user_by_slack s w).2
    | GET_users k => (get_user k w).2
    | PUT_users k payload => (update_user k payload w).2
    | GET_submissions_count a => (submissions_count a w).2
    end.

(** [Base.metadata.create_all(bind=engine)] on a new database file: both
    tables exist and are empty. *)
Definition init (clk : nat → datetime) : World := mkWorld [] [] ∅ clk 0.

Inductive reachable : World → Prop :=
| reachable_init (clk : nat → datetime) : reachable (init clk)
| reachable_step (w : World) (r : request) :
    reachable w → reachable (handle r w).

Definition slack_id_unique (w : World) : Prop := NoDup (slack_id <$> users w).

(** The world after the handlers of a sequence of requests have run, one
    after the other. *)
Definition handle_all (rs : list request) (w : World) : World :=
  foldl (λ w r, handle r w) w rs.


(** The body [{}] of a [PUT /users/{user_id}]: no field is set. *)
Definition empty_payload : UserUpdate.t := UserUpdate.mk None None None None.

(** A field of two successive bodies: the later body's value when the later
    body sets the field, the earlier body's otherwise. *)
Definition later_field {A} (earlier later : option A) : option A :=
  match later with
  | Some v => Some v
  | None => earlier
  end.

Definition merge_payload (p1 p2 : UserUpdate.t) : UserUpdate.t :=
  UserUpdate.mk
    (later_field (UserUpdate.total_xp p1) (UserUpdate.total_xp p2))
    (later_field (UserUpdate.current_streak p1) (UserUpdate.current_streak p2))
    (later_field (UserUpdate.longest_streak p1) (UserUpdate.longest_streak p2))
    (later_field (UserUpdate.display_name p1) (UserUpdate.display_name p2)).

(** A field of a body binds no integer the driver refuses. *)
Definition field_fits (field : option (option Z)) : Prop :=
  match field with
  | Some (Some z) => fits_int64 z
  | _ => True
  end.

(** Every integer a body sets fits in a signed 64-bit integer. *)
Definition payload_fits (payload : UserUpdate.t) : Prop :=
  field_fits (UserUpdate.total_xp payload) ∧
  field_fits (UserUpdate.current_streak payload) ∧
  field_fits (UserUpdate.longest_streak payload).

(** A handler run that came to its end: it returned, or raised the
    not-found error. *)
Definition finished {A} (o : outcome A) : Prop :=
  match o with
  | Return _ => True
  | Raise e => e = HTTPException 404 "User not found"
  end.

(** The world a handler leaves when an exception takes it past
    [session.close()]: the session it opened is still open. *)
Definition session_left_open (w : World) : World :=
  with_open_sessions w ({[fresh (open_sessions w)]} ∪ open_sessions w).

(** The primary keys of [rows] are 1, 2, ... in the order of the rows. *)
Definition keys_in_sequence (rows : list User) : Prop :=
  user_id <$> rows = seqZ 1 (Z.of_nat (length rows)).

(** ** Concrete worlds *)

(** An empty database, no session open, a clock that advances by one
    microsecond at each reading. *)
Definition world0 : World := mkWorld [] [] ∅ (λ n, Z.of_nat n) 0.

(** An empty database under a clock whose readings all fall on the same
    microsecond. *)
Definition world_frozen : World := mkWorld [] [] ∅ (λ _, 1000) 0.

(** [world0] and [world_frozen] after [POST /users {"slack_id": "U1"}]. *)
Definition world_U1 : World := (create_user (UserCreate.mk "U1" None) world0).2.
Definition world_frozen_U1 : World :=
  (create_user (UserCreate.mk "U1" None) world_frozen).2.

(** [world_U1] with one submission whose author is the key of no user, as a
    client of the database file can write it: SQLite does not enforce a
    foreign key unless asked to. *)
Definition world_orphan : World :=
  record_submissions [Submission.mk 1 5 10] world_U1.

(** [world_U1] after [POST /users {"slack_id": "U2", "display_name": "Bob"}]. *)
Definition world_U1_U2 : World :=
  (create_user (UserCreate.mk "U2" (Some "Bob")) world_U1).2.

Definition three_by_author_1 : list Submission.t :=
  [Submission.mk 1 1 10; Submission.mk 2 1 11; Submission.mk 3 1 12].

(** ** Basic facts about the store primitives *)

Lemma open_close (X : gset nat) : ({[fresh X]} ∪ X) ∖ {[fresh X]} = X.
Proof.
  apply set_eq. intros x.
  rewrite elem_of_difference, elem_of_union, elem_of_singleton.
  split; [by intros [[?|?] ?]|].
  intros Hx. split; [by right|]. intros ->. by apply (is_fresh X).
Qed.

Lemma world_eta (w : World) :
  mkWorld (users w) (submissions w) (open_sessions w) (clock w) (ticks w) = w.
Proof. by destruct w. Qed.

Section keyed_rows.
Context {A B : Type} `{EqDecision B} (key : A → B).

Lemma filter_eq_nil (x : B) (l : list A) :
  x ∉ key <$> l → filter (λ a, key a = x) l = [].
Proof.
  induction l as [|a l IH]; [done|].
  rewrite fmap_cons, not_elem_of_cons. intros [Hne Hnin].
  rewrite filter_cons_False by congruence. auto.
Qed.

Lemma head_filter_None (x : B) (l : list A) :
  x ∉ key <$> l → head (filter (λ a, key a = x) l) = None.
Proof. intros Hx. by rewrite filter_eq_nil. Qed.

Lemma head_filter_Some (x : B) (l : list A) (a : A) :
  head (filter (λ a, key a = x) l) = Some a → a ∈ l ∧ key a = x.
Proof.
  intros Ha. apply head_Some_elem_of in Ha.
  by apply list_elem_of_filter in Ha as [? ?].
Qed.

Lemma filter_fmap_key (g : A → A) (x : B) (l : list A) :
  (∀ a, key (g a) = key a) →
  filter (λ a, key a = x) (g <$> l) = g <$> filter (λ a, key a = x) l.
Proof.
  intros Hkey. induction l as [|a l IH]; [done|].
  rewrite fmap_cons. destruct (decide (key a = x)) as [Heq|Hne].
  - rewrite !filter_cons_True by (by rewrite ?Hkey). by rewrite fmap_cons, IH.
  - rewrite !filter_cons_False by (by rewrite ?Hkey). done.
Qed.

End keyed_rows.

Lemma head_fmap {A B} (g : A → B) (l : list A) : head (g <$> l) = g <$> head l.
Proof. by destruct l. Qed.

(** The key SQLite assigns is larger than every key in use. *)
Lemma foldl_max_ge (ks : list Z) (k0 : Z) :
  k0 ≤ foldl Z.max k0 ks ∧ ∀ k, k ∈ ks → k ≤ foldl Z.max k0 ks.
Proof.
  revert k0. induction ks as [|k1 ks IH]; intros k0; simpl.
  - split; [lia|]. by intros k ?%elem_of_nil.
  - destruct (IH (Z.max k0 k1)) as [H0 H1]. split; [lia|].
    intros k [->|Hk]%elem_of_cons; [lia|auto].
Qed.

Lemma next_user_id_fresh (rows : list User) :
  next_user_id rows ∉ user_id <$> rows.
Proof.
  unfold next_user_id. destruct (user_id <$> rows) as [|k0 ks].
  - apply not_elem_of_nil.
  - destruct (foldl_max_ge ks k0) as [H0 H1].
    intros [Heq|Hin]%elem_of_cons; [lia|]. apply H1 in Hin. lia.
Qed.

Lemma foldl_setattr_patched (u : User) (payload : UserUpdate.t) (now : datetime) :
  set_updated_at (foldl setattr u (dict_exclude_unset payload)) now =
  patched u payload now.
Proof.
  destruct payload as [[?|] [?|] [?|] [?|]]; reflexivity.
Qed.

Lemma update_row_user_id (u r : User) : user_id (update_row u r) = user_id r.
Proof. unfold update_row. by case_decide. Qed.

Lemma update_row_slack_id (u r : User) : slack_id (update_row u r) = slack_id r.
Proof. unfold update_row. by case_decide. Qed.


Lemma update_row_patched (u : User) (payload : UserUpdate.t) (now : datetime) :
  update_row (patched u payload now) u = patched u payload now.
Proof. unfold update_row. by rewrite decide_True by done. Qed.

Lemma update_row_other (u r : User) : user_id r ≠ user_id u → update_row u r = r.
Proof. intros H. unfold update_row. by rewrite decide_False. Qed.

Lemma other_rows_update (u : User) (k : Z) (rows : list User) :
  user_id u = k →
  filter (λ r, user_id r ≠ k) (update_row u <$> rows) =
  filter (λ r, user_id r ≠ k) rows.
Proof.
  intros Hk. induction rows as [|r rows IH]; [done|].
  rewrite fmap_cons. destruct (decide (user_id r = k)) as [Heq|Hne].
  - rewrite !filter_cons_False
      by (rewrite ?update_row_user_id; intros H; by apply H).
    exact IH.
  - rewrite update_row_other by congruence.
    rewrite !filter_cons_True by done. by rewrite IH.
Qed.

Lemma row_by_user_id_update (u : User) (k : Z) (rows : list User) :
  row_by_user_id k (update_row u <$> rows) = update_row u <$> row_by_user_id k rows.
Proof.
  unfold row_by_user_id.
  rewrite (filter_fmap_key user_id) by apply update_row_user_id.
  apply head_fmap.
Qed.

Lemma row_by_user_id_Some (k : Z) (rows : list User) (u : User) :
  row_by_user_id k rows = Some u → u ∈ rows ∧ user_id u = k.
Proof. apply (head_filter_Some user_id). Qed.

Lemma row_by_user_id_snoc_fresh (rows : list User) (u : User) :
  user_id u ∉ user_id <$> rows → row_by_user_id (user_id u) (rows ++ [u]) = Some u.
Proof.
  intros H. unfold row_by_user_id.
  rewrite filter_app, (filter_eq_nil user_id) by done.
  by rewrite filter_cons_True.
Qed.

Lemma first_by_slack_id_snoc_fresh (rows : list User) (u : User) :
  slack_id u ∉ slack_id <$> rows → first_by_slack_id (slack_id u) (rows ++ [u]) = Some u.
Proof.
  intros H. unfold first_by_slack_id.
  rewrite filter_app, (filter_eq_nil slack_id) by done.
  by rewrite filter_cons_True.
Qed.


(** ** The handlers, step by step *)

Ltac run :=
  unfold create_user, get_user_by_slack, get_user, update_user, submissions_count,
    session_refresh, session_commit, flush_insert, session_add,
    query_User_get, query_User_filter_by_slack_id_first,
    query_Submission_filter_by_author_id_count,
    SessionLocal, session_close, utcnow, raise, session_left_open,
    with_open_sessions, with_users, mbind, mret, M_bind, M_ret;
  cbn beta iota delta [fst snd users submissions open_sessions clock ticks].

Ltac proj := cbn beta iota delta [fst snd users submissions open_sessions clock ticks].

Lemma fits_int64_small (z : Z) : 0 ≤ z ≤ 1000000 → fits_int64 z.
Proof.
  unfold fits_int64. intros [H0 H1].
  assert (H63 : 2 ^ 63 = 9223372036854775808) by reflexivity.
  rewrite H63. lia.
Qed.

Lemma not_fits_int64_2_63 : ¬ fits_int64 (2 ^ 63).
Proof.
  unfold fits_int64.
  assert (H63 : 2 ^ 63 = 9223372036854775808) by reflexivity.
  rewrite H63. lia.
Qed.

Lemma get_user_eq (k : Z) (w : World) :
  fits_int64 k →
  get_user k w =
  (match row_by_user_id k (users w) with
   | Some u => Return u
   | None => Raise not_found
   end, w).
Proof.
  intros Hk. run. rewrite decide_True by done. proj.
  rewrite open_close, world_eta. by destruct (row_by_user_id k (users w)).
Qed.

Lemma get_user_overflow (k : Z) (w : World) :
  ¬ fits_int64 k → get_user k w = (Raise OverflowError, session_left_open w).
Proof. intros Hk. run. by rewrite decide_False. Qed.

Lemma get_user_by_slack_eq (s : string) (w : World) :
  get_user_by_slack s w =
  (match first_by_slack_id s (users w) with
   | Some u => Return u
   | None => Raise not_found
   end, w).
Proof.
  run. rewrite open_close, world_eta. by destruct (first_by_slack_id s (users w)).
Qed.

Lemma submissions_count_eq (a : Z) (w : World) :
  fits_int64 a →
  submissions_count a w =
  (Return (length (filter (λ s, Submission.author_id s = a) (submissions w))), w).
Proof.
  intros Ha. run. rewrite decide_True by done. proj.
  by rewrite open_close, world_eta.
Qed.

Lemma submissions_count_overflow (a : Z) (w : World) :
  ¬ fits_int64 a → submissions_count a w = (Raise OverflowError, session_left_open w).
Proof. intros Ha. run. by rewrite decide_False. Qed.

Lemma create_user_eq (payload : UserCreate.t) (w : World) :
  create_user payload w =
  if decide (UserCreate.slack_id payload ∈ slack_id <$> users w) then
    (Raise IntegrityError,
     mkWorld (users w) (submissions w)
       ({[fresh (open_sessions w)]} ∪ open_sessions w) (clock w) (S (S (ticks w))))
  else
    (Return (created_row payload w),
     mkWorld (users w ++ [created_row payload w]) (submissions w)
       (open_sessions w) (clock w) (S (S (ticks w)))).
Proof.
  run. unfold insert_row. proj.
  case_decide as Hdup; [done|].
  run. fold (created_row payload w).
  change (next_user_id (users w)) with (user_id (created_row payload w)).
  rewrite row_by_user_id_snoc_fresh by apply next_user_id_fresh.
  proj. by rewrite open_close.
Qed.

(** The three outcomes of [update_user] on a key the driver accepts. *)
Lemma update_user_cases (k : Z) (payload : UserUpdate.t) (w : World) :
  fits_int64 k →
  update_user k payload w =
  match row_by_user_id k (users w) with
  | None => (Raise not_found, w)
  | Some u =>
      let u' := patched u payload (clock w (ticks w)) in
      if decide (Forall fits_int64 (bound_integers u' u)) then
        (Return u',
         mkWorld (update_row u' <$> users w) (submissions w)
           (open_sessions w) (clock w) (S (ticks w)))
      else
        (Raise OverflowError,
         mkWorld (users w) (submissions w)
           ({[fresh (open_sessions w)]} ∪ open_sessions w) (clock w) (S (ticks w)))
  end.
Proof.
  intros Hfit. run. rewrite decide_True by done. proj.
  destruct (row_by_user_id k (users w)) as [u|] eqn:Hu.
  - run. rewrite foldl_setattr_patched. unfold flush_update. proj.
    set (u' := patched u payload (clock w (ticks w))).
    change (user_id u') with (user_id u).
    apply row_by_user_id_Some in Hu as Hk. destruct Hk as [_ Hk].
    rewrite Hk, Hu. case_decide as Hb; [|done].
    run. rewrite row_by_user_id_update, Hu. simpl.
    unfold u'. rewrite update_row_patched. by rewrite open_close.
  - run. by rewrite open_close, world_eta.
Qed.

Lemma update_user_overflow (k : Z) (payload : UserUpdate.t) (w : World) :
  ¬ fits_int64 k →
  update_user k payload w = (Raise OverflowError, session_left_open w).
Proof. intros Hk. run. by rewrite decide_False. Qed.

Lemma bound_integer_fits (loaded : option Z) (field : option (option Z)) :
  field_fits field → Forall fits_int64 (bound_integer loaded (default loaded field)).
Proof.
  unfold bound_integer. intros Hf. case_decide as Heq; [done|].
  destruct field as [[z|]|]; simpl in *; [by apply Forall_singleton|done|done].
Qed.

Lemma bound_integers_patched (u : User) (payload : UserUpdate.t) (now : datetime) :
  payload_fits payload → Forall fits_int64 (bound_integers (patched u payload now) u).
Proof.
  intros (H1 & H2 & H3). unfold bound_integers. simpl.
  rewrite !Forall_app. by split_and!; apply bound_integer_fits.
Qed.

Lemma update_user_eq (k : Z) (payload : UserUpdate.t) (w : World) :
  fits_int64 k → payload_fits payload →
  update_user k payload w =
  match row_by_user_id k (users w) with
  | None => (Raise not_found, w)
  | Some u =>
      let u' := patched u payload (clock w (ticks w)) in
      (Return u',
       mkWorld (update_row u' <$> users w) (submissions w)
         (open_sessions w) (clock w) (S (ticks w)))
  end.
Proof.
  intros Hk Hp. rewrite update_user_cases by done.
  destruct (row_by_user_id k (users w)) as [u|]; [|done]. simpl.
  by rewrite decide_True by (by apply bound_integers_patched).
Qed.

(** What each handler does to the two tables, on every path. *)

Lemma users_create_user (payload : UserCreate.t) (w : World) :
  users (create_user payload w).2 = users w ∨
  users (create_user payload w).2 = (users w ++ [created_row payload w])%list.
Proof. rewrite create_user_eq. case_decide; [by left|by right]. Qed.

Lemma users_update_user (k : Z) (payload : UserUpdate.t) (w : World) :
  users (update_user k payload w).2 = users w ∨
  ∃ u : User, user_id u = k ∧ users (update_user k payload w).2 = update_row u <$> users w.
Proof.
  destruct (decide (fits_int64 k)) as [Hk|Hk]; [|left; by rewrite update_user_overflow].
  rewrite update_user_cases by done.
  destruct (row_by_user_id k (users w)) as [u|] eqn:Hu; [|by left].
  simpl. case_decide; [|by left].
  right. apply row_by_user_id_Some in Hu as [_ Hu].
  exists (patched u payload (clock w (ticks w))). by split.
Qed.

Lemma users_get_user (k : Z) (w : World) : users (get_user k w).2 = users w.
Proof.
  destruct (decide (fits_int64 k)); [by rewrite get_user_eq|by rewrite get_user_overflow].
Qed.

Lemma users_submissions_count (a : Z) (w : World) :
  users (submissions_count a w).2 = users w.
Proof.
  destruct (decide (fits_int64 a));
    [by rewrite submissions_count_eq|by rewrite submissions_count_overflow].
Qed.

Lemma submissions_create_user (payload : UserCreate.t) (w : World) :
  submissions (create_user payload w).2 = submissions w.
Proof. rewrite create_user_eq. by case_decide. Qed.

Lemma submissions_update_user (k : Z) (payload : UserUpdate.t) (w : World) :
  submissions (update_user k payload w).2 = submissions w.
Proof.
  destruct (decide (fits_int64 k)) as [Hk|Hk]; [|by rewrite update_user_overflow].
  rewrite update_user_cases by done.
  destruct (row_by_user_id k (users w)); [|done]. simpl. by case_decide.
Qed.

Lemma submissions_get_user (k : Z) (w : World) :
  submissions (get_user k w).2 = submissions w.
Proof.
  destruct (decide (fits_int64 k)); [by rewrite get_user_eq|by rewrite get_user_overflow].
Qed.

Lemma submissions_submissions_count (a : Z) (w : World) :
  submissions (submissions_count a w).2 = submissions w.
Proof.
  destruct (decide (fits_int64 a));
    [by rewrite submissions_count_eq|by rewrite submissions_count_overflow].
Qed.

Lemma update_user_Return (k : Z) (payload : UserUpdate.t) (w w' : World) (u' : User) :
  update_user k payload w = (Return u', w') →
  fits_int64 k ∧
  ∃ u : User,
    row_by_user_id k (users w) = Some u ∧
    u' = patched u payload (clock w (ticks w)) ∧
    w' = mkWorld (update_row u' <$> users w) (submissions w)
           (open_sessions w) (clock w) (S (ticks w)).
Proof.
  destruct (decide (fits_int64 k)) as [Hk|Hk];
    [|by rewrite update_user_overflow].
  rewrite update_user_cases by done.
  destruct (row_by_user_id k (users w)) as [u|]; [|done].
  simpl. case_decide; [|done]. intros [= <- <-]. split; [done|]. by exists u.
Qed.

(** ** The concrete worlds, evaluated *)

Lemma world_U1_eq :
  world_U1 =
  mkWorld [mkUser 1 "U1" None (Some 0) (Some 0) (Some 0) 0 1] [] ∅ (λ n, Z.of_nat n) 2.
Proof. unfold world_U1. by rewrite create_user_eq. Qed.

Lemma row_1_world_U1 :
  row_by_user_id 1 (users world_U1) =
  Some (mkUser 1 "U1" None (Some 0) (Some 0) (Some 0) 0 1).
Proof. reflexivity. Qed.

Lemma fits_int64_1 : fits_int64 1.
Proof. by apply fits_int64_small. Qed.

Example create_U1 :
  create_user (UserCreate.mk "U1" (Some "Ann")) world0 =
  (Return (mkUser 1 "U1" (Some "Ann") (Some 0) (Some 0) (Some 0) 0 1),
   mkWorld [mkUser 1 "U1" (Some "Ann") (Some 0) (Some 0) (Some 0) 0 1] [] ∅
     (λ n, Z.of_nat n) 2).
Proof. by rewrite create_user_eq. Qed.

Example update_U1 :
  update_user 1 (UserUpdate.mk (Some (Some 50)) None None (Some None)) world_U1 =
  (Return (mkUser 1 "U1" None (Some 50) (Some 0) (Some 0) 0 2),
   mkWorld [mkUser 1 "U1" None (Some 50) (Some 0) (Some 0) 0 2] [] ∅
     (λ n, Z.of_nat n) 3).
Proof.
  rewrite world_U1_eq.
  rewrite update_user_eq; [done|by apply fits_int64_small|].
  unfold payload_fits, field_fits; simpl.
  split_and?; try done; by apply fits_int64_small.
Qed.

(** ** Create, then fetch by [slack_id] *)

(** C1 (amended).  For every [slack_id] S and optional display name D,
    [create_user] with (S, D) on a store that has no row with S returns, and
    [get_user_by_slack] with S then returns the same record: its [slack_id]
    is S, its [display_name] is D, [total_xp], [current_streak] and
    [longest_streak] are 0, [created_at] is the clock reading the insert
    takes first and [updated_at] the reading it takes next; so [created_at]
    equals [updated_at] exactly when these two readings coincide. *)
Theorem create_user_then_get_by_slack (w : World) (s : string) (d : option string) :
  s ∉ slack_id <$> users w →
  ∃ (u : User) (w1 : World),
    create_user (UserCreate.mk s d) w = (Return u, w1) ∧
    get_user_by_slack s w1 = (Return u, w1) ∧
    slack_id u = s ∧ display_name u = d ∧
    total_xp u = Some 0 ∧ current_streak u = Some 0 ∧ longest_streak u = Some 0 ∧
    created_at u = clock w (ticks w) ∧
    updated_at u = clock w (S (ticks w)) ∧
    (created_at u = updated_at u ↔ clock w (ticks w) = clock w (S (ticks w))).
Proof.
  intros Hnew. eexists _, _. split.
  { rewrite create_user_eq. simpl. by rewrite decide_False. }
  split; [|done].
  rewrite get_user_by_slack_eq. simpl.
  change s with (slack_id (created_row (UserCreate.mk s d) w)) at 1.
  by rewrite first_by_slack_id_snoc_fresh.
Qed.

Lemma create_user_then_get_by_slack_witness :
  ("U1" ∉ slack_id <$> users world0) ∧
  ∃ (u : User) (w1 : World),
    create_user (UserCreate.mk "U1" (Some "Ann")) world0 = (Return u, w1) ∧
    get_user_by_slack "U1" w1 = (Return u, w1) ∧
    slack_id u = "U1" ∧ display_name u = Some "Ann" ∧
    total_xp u = Some 0 ∧ current_streak u = Some 0 ∧ longest_streak u = Some 0 ∧
    created_at u = clock world0 (ticks world0) ∧
    updated_at u = clock world0 (S (ticks world0)) ∧
    (created_at u = updated_at u ↔
     clock world0 (ticks world0) = clock world0 (S (ticks world0))).
Proof.
  split.
  - simpl. apply not_elem_of_nil.
  - apply (create_user_then_get_by_slack world0 "U1" (Some "Ann")).
    simpl. apply not_elem_of_nil.
Defined.

(** C1 as stated fails: under a clock that advances between two readings,
    the record created for "U1" in the empty store and fetched back has
    [created_at = 0] and [updated_at = 1]. *)
Lemma create_user_timestamps_differ :
  ∃ (u : User) (w1 : World),
    create_user (UserCreate.mk "U1" (Some "Ann")) world0 = (Return u, w1) ∧
    get_user_by_slack "U1" w1 = (Return u, w1) ∧
    created_at u = 0 ∧ updated_at u = 1 ∧ created_at u ≠ updated_at u.
Proof.
  eexists _, _. split; [apply create_U1|].
  split; [by rewrite get_user_by_slack_eq|]. done.
Qed.

(** ** Partial update *)

Ltac fits :=
  unfold payload_fits, field_fits; simpl;
  split_and?; try done; try (apply fits_int64_small; lia).

Lemma fits_50 : payload_fits (UserUpdate.mk (Some (Some 50)) None None None).
Proof. fits. Qed.

(** C6 (amended).  For every existing user, stored under a key that fits in
    a signed 64-bit integer as every key of the store does, and every payload
    whose integers fit in a signed 64-bit integer, [update_user] returns the
    updated record, which is also the row the store then holds under that
    key: each of [total_xp], [current_streak], [longest_streak] and
    [display_name] keeps the stored value when the payload omits it and takes
    the payload's value when the payload sets it, null included; [updated_at]
    is the clock reading taken by the update; [user_id], [slack_id] and
    [created_at] are the stored ones; every row under another key and the
    submissions are as before. *)
Theorem update_user_applies_set_fields
    (w : World) (k : Z) (payload : UserUpdate.t) (u : User) :
  fits_int64 k →
  payload_fits payload →
  row_by_user_id k (users w) = Some u →
  ∃ (u' : User) (w' : World),
    update_user k payload w = (Return u', w') ∧
    row_by_user_id k (users w') = Some u' ∧
    total_xp u' = default (total_xp u) (UserUpdate.total_xp payload) ∧
    current_streak u' = default (current_streak u) (UserUpdate.current_streak payload) ∧
    longest_streak u' = default (longest_streak u) (UserUpdate.longest_streak payload) ∧
    display_name u' = default (display_name u) (UserUpdate.display_name payload) ∧
    updated_at u' = clock w (ticks w) ∧
    user_id u' = user_id u ∧ slack_id u' = slack_id u ∧ created_at u' = created_at u ∧
    filter (λ r, user_id r ≠ k) (users w') = filter (λ r, user_id r ≠ k) (users w) ∧
    submissions w' = submissions w.
Proof.
  intros Hfit Hp Hu. apply row_by_user_id_Some in Hu as Hk. destruct Hk as [_ Hk].
  eexists _, _. split; [by rewrite update_user_eq, Hu|]. simpl.
  split; [by rewrite row_by_user_id_update, Hu; simpl; rewrite update_row_patched|].
  repeat (split; [done|]). split; [|done].
  by apply other_rows_update.
Qed.

Lemma update_user_applies_set_fields_witness :
  fits_int64 1 ∧
  payload_fits (UserUpdate.mk (Some None) None (Some (Some 3)) (Some (Some "Ann"))) ∧
  row_by_user_id 1 (users world_U1) =
    Some (mkUser 1 "U1" None (Some 0) (Some 0) (Some 0) 0 1) ∧
  ∃ (u' : User) (w' : World),
    update_user 1 (UserUpdate.mk (Some None) None (Some (Some 3)) (Some (Some "Ann")))
      world_U1 = (Return u', w') ∧
    row_by_user_id 1 (users w') = Some u' ∧
    total_xp u' = None ∧
    current_streak u' = Some 0 ∧
    longest_streak u' = Some 3 ∧
    display_name u' = Some "Ann" ∧
    updated_at u' = 2 ∧
    user_id u' = 1 ∧ slack_id u' = "U1" ∧ created_at u' = 0 ∧
    filter (λ r, user_id r ≠ 1) (users w') = filter (λ r, user_id r ≠ 1) (users world_U1) ∧
    submissions w' = submissions world_U1.
Proof.
  assert (Hp : payload_fits
                 (UserUpdate.mk (Some None) None (Some (Some 3)) (Some (Some "Ann")))).
  { fits. }
  split; [exact fits_int64_1|]. split; [exact Hp|]. split; [exact row_1_world_U1|].
  exact (update_user_applies_set_fields world_U1 1 _ _ fits_int64_1 Hp row_1_world_U1).
Defined.

(** C6 as stated fails: a payload may carry any integer, and for one that
    does not fit in a signed 64-bit integer the commit raises
    [OverflowError]: no record is returned, no field is applied, [updated_at]
    is not refreshed. *)
Lemma update_user_out_of_range_payload :
  row_by_user_id 1 (users world_U1) =
    Some (mkUser 1 "U1" None (Some 0) (Some 0) (Some 0) 0 1) ∧
  ∃ w' : World,
    update_user 1 (UserUpdate.mk (Some (Some (2 ^ 63))) None None None) world_U1 =
      (Raise OverflowError, w') ∧
    users w' = users world_U1.
Proof.
  split; [exact row_1_world_U1|]. rewrite world_U1_eq.
  eexists. rewrite update_user_cases by exact fits_int64_1. simpl. done.
Qed.

(** C2 (amended).  For every existing user U, [update_user] with the payload
    that sets only [total_xp], to 50, returns a record (also the row then
    stored under that key) whose [total_xp] is 50 and whose [current_streak],
    [longest_streak] and [display_name] are those of U; its [updated_at] is
    the clock reading taken by the update, which is strictly greater than U's
    [updated_at] exactly when that reading is later than U's [updated_at].
    The key of U fits in a signed 64-bit integer, as every key of the store
    does. *)
Theorem update_user_total_xp_only (w : World) (k : Z) (u : User) :
  fits_int64 k →
  row_by_user_id k (users w) = Some u →
  ∃ (u' : User) (w' : World),
    update_user k (UserUpdate.mk (Some (Some 50)) None None None) w = (Return u', w') ∧
    row_by_user_id k (users w') = Some u' ∧
    total_xp u' = Some 50 ∧
    current_streak u' = current_streak u ∧
    longest_streak u' = longest_streak u ∧
    display_name u' = display_name u ∧
    updated_at u' = clock w (ticks w) ∧
    (updated_at u < updated_at u' ↔ updated_at u < clock w (ticks w)).
Proof.
  intros Hfit Hu. apply row_by_user_id_Some in Hu as Hk. destruct Hk as [_ Hk].
  eexists _, _. split; [by rewrite (update_user_eq _ _ _ Hfit fits_50), Hu|]. simpl.
  split; [by rewrite row_by_user_id_update, Hu; simpl; rewrite update_row_patched|].
  done.
Qed.

Lemma update_user_total_xp_only_witness :
  fits_int64 1 ∧
  row_by_user_id 1 (users world_U1) =
    Some (mkUser 1 "U1" None (Some 0) (Some 0) (Some 0) 0 1) ∧
  ∃ (u' : User) (w' : World),
    update_user 1 (UserUpdate.mk (Some (Some 50)) None None None) world_U1 =
      (Return u', w') ∧
    row_by_user_id 1 (users w') = Some u' ∧
    total_xp u' = Some 50 ∧
    current_streak u' = Some 0 ∧
    longest_streak u' = Some 0 ∧
    display_name u' = None ∧
    updated_at u' = 2 ∧
    (1 < updated_at u' ↔ 1 < 2).
Proof.
  split; [exact fits_int64_1|]. split; [exact row_1_world_U1|].
  exact (update_user_total_xp_only world_U1 1 _ fits_int64_1 row_1_world_U1).
Defined.

(** C2 as stated fails: when the clock reading of the update falls on the
    microsecond already stored in [updated_at], the update of [total_xp] to
    50 succeeds and [updated_at] keeps its value. *)
Lemma update_user_updated_at_not_increased :
  ∃ (u u' : User) (w' : World),
    get_user 1 world_frozen_U1 = (Return u, world_frozen_U1) ∧
    update_user 1 (UserUpdate.mk (Some (Some 50)) None None None) world_frozen_U1 =
      (Return u', w') ∧
    total_xp u' = Some 50 ∧
    updated_at u = 1000 ∧ updated_at u' = 1000 ∧
    ¬ (updated_at u < updated_at u').
Proof.
  unfold world_frozen_U1. rewrite create_user_eq. simpl.
  eexists _, _, _. split; [by rewrite (get_user_eq _ _ fits_int64_1)|].
  split; [by rewrite (update_user_eq _ _ _ fits_int64_1 fits_50)|]. simpl.
  repeat (split; [done|]). lia.
Qed.




(** C3 (amended).  For every [user_id] that no row of [users] carries and
    every payload, [update_user] leaves both tables as they were; when the
    [user_id] fits in a signed 64-bit integer it raises the 404 "User not
    found" error and the whole world (tables, open sessions, clock) is as it
    was. *)
Theorem update_user_unknown_id (w : World) (k : Z) (payload : UserUpdate.t) :
  k ∉ user_id <$> users w →
  users (update_user k payload w).2 = users w ∧
  submissions (update_user k payload w).2 = submissions w ∧
  (fits_int64 k →
   update_user k payload w = (Raise (HTTPException 404 "User not found"), w)).
Proof.
  intros Hk.
  assert (Hnone : row_by_user_id k (users w) = None).
  { unfold row_by_user_id. by rewrite (head_filter_None user_id). }
  split; [|split].
  - destruct (decide (fits_int64 k)); [|by rewrite update_user_overflow].
    by rewrite update_user_cases, Hnone.
  - apply submissions_update_user.
  - intros Hfit. by rewrite update_user_cases, Hnone.
Qed.

Lemma not_elem_7_world_U1 : 7 ∉ user_id <$> users world_U1.
Proof. intros [H|H%elem_of_nil]%elem_of_cons; [discriminate H|done]. Qed.

Lemma update_user_unknown_id_witness :
  (7 ∉ user_id <$> users world_U1) ∧
  fits_int64 7 ∧
  users (update_user 7 (UserUpdate.mk (Some (Some 50)) None None None) world_U1).2 =
    users world_U1 ∧
  submissions (update_user 7 (UserUpdate.mk (Some (Some 50)) None None None) world_U1).2 =
    submissions world_U1 ∧
  update_user 7 (UserUpdate.mk (Some (Some 50)) None None None) world_U1 =
  (Raise (HTTPException 404 "User not found"), world_U1).
Proof.
  assert (H7 : fits_int64 7) by (by apply fits_int64_small).
  split; [exact not_elem_7_world_U1|]. split; [exact H7|].
  destruct (update_user_unknown_id world_U1 7
              (UserUpdate.mk (Some (Some 50)) None None None) not_elem_7_world_U1)
    as (Hu & Hs & Hr).
  split; [exact Hu|]. split; [exact Hs|exact (Hr H7)].
Defined.

(** C3 as stated fails: the handler takes any integer as [user_id], and for
    one that does not fit in a signed 64-bit integer the lookup raises
    [OverflowError] instead of the not-found error, and the handler is left
    with its session open. *)
Lemma update_user_out_of_range_id :
  (2 ^ 63 ∉ user_id <$> users world_U1) ∧
  ∃ w' : World,
    update_user (2 ^ 63) (UserUpdate.mk (Some (Some 50)) None None None) world_U1 =
      (Raise OverflowError, w') ∧
    open_sessions w' ≠ open_sessions world_U1.
Proof.
  split.
  { intros [H|H%elem_of_nil]%elem_of_cons; [discriminate H|done]. }
  eexists. split; [apply update_user_overflow, not_fits_int64_2_63|].
  rewrite world_U1_eq. simpl. rewrite union_empty_r_L.
  intros H. apply (not_elem_of_empty (C:=gset nat) (fresh (∅ : gset nat))).
  rewrite <- H. by apply elem_of_singleton.
Qed.

(** ** Lookups and the submission count *)

(** C4 (amended).  In every world, [get_user] with a [user_id] that fits in
    a signed 64-bit integer and that no row of [users] carries raises the 404
    "User not found" error; for no [user_id] absent from the table does it
    return a record; and [get_user_by_slack] with a [slack_id] that no row
    carries raises the 404 "User not found" error. *)
Theorem get_unknown_user_not_found (w : World) :
  (∀ k : Z, fits_int64 k → k ∉ user_id <$> users w →
     get_user k w = (Raise (HTTPException 404 "User not found"), w)) ∧
  (∀ (k : Z) (u : User), k ∉ user_id <$> users w → (get_user k w).1 ≠ Return u) ∧
  (∀ s : string, s ∉ slack_id <$> users w →
     get_user_by_slack s w = (Raise (HTTPException 404 "User not found"), w)).
Proof.
  assert (Hnone : ∀ k, k ∉ user_id <$> users w → row_by_user_id k (users w) = None).
  { intros k Hk. unfold row_by_user_id. by rewrite (head_filter_None user_id). }
  split; [|split].
  - intros k Hfit Hk. by rewrite get_user_eq, Hnone.
  - intros k u Hk. destruct (decide (fits_int64 k)).
    + by rewrite get_user_eq, Hnone.
    + by rewrite get_user_overflow.
  - intros s Hs. rewrite get_user_by_slack_eq.
    unfold first_by_slack_id. by rewrite (head_filter_None slack_id).
Qed.

Lemma get_unknown_user_not_found_witness :
  fits_int64 999999 ∧
  (999999 ∉ user_id <$> users world0) ∧
  ("U2" ∉ slack_id <$> users world_U1) ∧
  get_user 999999 world0 = (Raise (HTTPException 404 "User not found"), world0) ∧
  get_user_by_slack "U2" world_U1 =
    (Raise (HTTPException 404 "User not found"), world_U1).
Proof.
  assert (H0 : fits_int64 999999) by (apply fits_int64_small; lia).
  assert (H1 : 999999 ∉ user_id <$> users world0) by apply not_elem_of_nil.
  assert (H2 : "U2" ∉ slack_id <$> users world_U1).
  { intros [H|H%elem_of_nil]%elem_of_cons; [discriminate H|done]. }
  split; [exact H0|]. split; [exact H1|]. split; [exact H2|]. split.
  - exact (proj1 (get_unknown_user_not_found world0) 999999 H0 H1).
  - exact (proj2 (proj2 (get_unknown_user_not_found world_U1)) "U2" H2).
Defined.

(** C4 as stated fails: the handler takes any integer as [user_id], and for
    one that does not fit in a signed 64-bit integer the lookup raises
    [OverflowError] instead of the not-found error. *)
Lemma get_user_out_of_range_id :
  (2 ^ 63 ∉ user_id <$> users world0) ∧
  (get_user (2 ^ 63) world0).1 = Raise OverflowError.
Proof.
  split; [apply not_elem_of_nil|].
  by rewrite (get_user_overflow _ _ not_fits_int64_2_63).
Qed.

(** C5 (amended).  For every integer [author_id] A that fits in a signed
    64-bit integer, [submissions_count] returns, and does not raise, the
    number of rows of [submissions] whose [author_id] is A, whether or not A
    is the key of a user.  It returns 0 when no row has author A; and once N
    more submissions with author A are in the store it returns N more than
    before, hence exactly N for an author that had none. *)
Theorem submissions_count_exact (w : World) (a : Z) :
  fits_int64 a →
  submissions_count a w = (Return (authored a (submissions w)), w) ∧
  (a ∉ Submission.author_id <$> submissions w →
   submissions_count a w = (Return 0%nat, w)) ∧
  (∀ new : list Submission.t,
     Forall (λ s, Submission.author_id s = a) new →
     submissions_count a (record_submissions new w) =
     (Return (authored a (submissions w) + length new)%nat, record_submissions new w)).
Proof.
  intros Hfit. split; [by apply submissions_count_eq|]. split.
  - intros Ha. rewrite submissions_count_eq by done.
    by rewrite (filter_eq_nil Submission.author_id).
  - intros new Hnew. rewrite submissions_count_eq by done. do 2 f_equal.
    unfold authored, record_submissions. simpl.
    rewrite filter_app, length_app. f_equal.
    induction Hnew as [|s new Hs _ IH]; [done|].
    rewrite filter_cons_True by done. simpl. by rewrite IH.
Qed.

Lemma submissions_count_exact_witness :
  fits_int64 1 ∧
  fits_int64 5 ∧
  (5 ∉ Submission.author_id <$>
         submissions (record_submissions three_by_author_1 world_U1)) ∧
  Forall (λ s, Submission.author_id s = 1) three_by_author_1 ∧
  submissions_count 1 (record_submissions three_by_author_1 world_U1) =
    (Return 3%nat, record_submissions three_by_author_1 world_U1) ∧
  submissions_count 5 (record_submissions three_by_author_1 world_U1) =
    (Return 0%nat, record_submissions three_by_author_1 world_U1) ∧
  submissions_count 1
    (record_submissions three_by_author_1
       (record_submissions three_by_author_1 world_U1)) =
    (Return 6%nat,
     record_submissions three_by_author_1
       (record_submissions three_by_author_1 world_U1)).
Proof.
  assert (H5 : fits_int64 5) by (apply fits_int64_small; lia).
  assert (Hn : 5 ∉ Submission.author_id <$>
                 submissions (record_submissions three_by_author_1 world_U1)).
  { intros H. repeat (apply elem_of_cons in H as [H|H]; [discriminate H|]).
    by apply elem_of_nil in H. }
  assert (H4 : Forall (λ s, Submission.author_id s = 1) three_by_author_1).
  { repeat constructor. }
  split; [exact fits_int64_1|]. split; [exact H5|]. split; [exact Hn|].
  split; [exact H4|].
  destruct (submissions_count_exact
              (record_submissions three_by_author_1 world_U1) 1 fits_int64_1)
    as (E1 & _ & N1).
  destruct (submissions_count_exact
              (record_submissions three_by_author_1 world_U1) 5 H5)
    as (_ & Z5 & _).
  split; [exact E1|]. split; [exact (Z5 Hn)|exact (N1 three_by_author_1 H4)].
Defined.

(** C5 as stated fails twice.  The handler takes any integer as
    [author_id], and for one that does not fit in a signed 64-bit integer the
    count raises [OverflowError].  And an [author_id] that is the key of no
    user does not make the count 0: SQLite does not enforce the foreign key,
    and the one submission of [world_orphan], whose author 5 is no user, is
    counted. *)
Lemma submissions_count_out_of_range_or_orphan :
  (submissions_count (2 ^ 63) world0).1 = Raise OverflowError ∧
  (5 ∉ user_id <$> users world_orphan) ∧
  submissions_count 5 world_orphan = (Return 1%nat, world_orphan).
Proof.
  split; [by rewrite (submissions_count_overflow _ _ not_fits_int64_2_63)|].
  split.
  { intros [H|H%elem_of_nil]%elem_of_cons; [discriminate H|done]. }
  rewrite submissions_count_eq by (apply fits_int64_small; lia). done.
Qed.

(** C10.  In every world and for every input, [get_user],
    [get_user_by_slack] and [submissions_count] leave both tables as they
    were, whether they return or raise.  For every integer input that fits in
    a signed 64-bit integer, and for every [slack_id], the whole world (the
    open sessions and the clock too) is as it was. *)
Theorem read_only_handlers_frame (w : World) (k : Z) (s : string) (a : Z) :
  (users (get_user k w).2 = users w ∧
   submissions (get_user k w).2 = submissions w) ∧
  (users (get_user_by_slack s w).2 = users w ∧
   submissions (get_user_by_slack s w).2 = submissions w) ∧
  (users (submissions_count a w).2 = users w ∧
   submissions (submissions_count a w).2 = submissions w) ∧
  (fits_int64 k → (get_user k w).2 = w) ∧
  (get_user_by_slack s w).2 = w ∧
  (fits_int64 a → (submissions_count a w).2 = w).
Proof.
  split; [split; [apply users_get_user|apply submissions_get_user]|].
  split; [by rewrite get_user_by_slack_eq|].
  split; [split; [apply users_submissions_count|apply submissions_submissions_count]|].
  split; [by intros Hk; rewrite get_user_eq|].
  split; [by rewrite get_user_by_slack_eq|].
  by intros Ha; rewrite submissions_count_eq.
Qed.

Lemma read_only_handlers_frame_witness :
  fits_int64 1 ∧
  (get_user 1 world_U1).2 = world_U1 ∧
  (get_user_by_slack "U1" world_U1).2 = world_U1 ∧
  (submissions_count 1 world_U1).2 = world_U1.
Proof.
  split; [exact fits_int64_1|].
  destruct (read_only_handlers_frame world_U1 1 "U1" 1) as (_ & _ & _ & Hg & Hs & Hc).
  split; [exact (Hg fits_int64_1)|]. split; [exact Hs|exact (Hc fits_int64_1)].
Defined.

(** ** Sessions *)

Lemma create_user_duplicate (w : World) (payload : UserCreate.t) :
  UserCreate.slack_id payload ∈ slack_id <$> users w →
  create_user payload w =
  (Raise IntegrityError,
   mkWorld (users w) (submissions w)
     ({[fresh (open_sessions w)]} ∪ open_sessions w) (clock w) (S (S (ticks w)))).
Proof. intros H. rewrite create_user_eq. by rewrite decide_True. Qed.

(** C7 fails on the code.  [create_user] with a [slack_id] that is already
    in the store: no session is open before the call, the commit raises
    [IntegrityError], [session.close()] is not reached, and the session the
    handler opened is still open when the handler is left. *)
Theorem create_user_duplicate_leaves_session_open :
  open_sessions world_U1 = ∅ ∧
  ∃ w' : World,
    create_user (UserCreate.mk "U1" (Some "Bob")) world_U1 = (Raise IntegrityError, w') ∧
    open_sessions w' = {[fresh (open_sessions world_U1)]} ∧
    open_sessions w' ≠ open_sessions world_U1.
Proof.
  rewrite world_U1_eq. split; [reflexivity|]. eexists. split.
  { apply create_user_duplicate. simpl. apply list_elem_of_here. }
  cbn beta iota delta [users submissions open_sessions clock ticks].
  rewrite union_empty_r_L. split; [reflexivity|].
  intros H. apply (not_elem_of_empty (C:=gset nat) (fresh (∅ : gset nat))).
  rewrite <- H. by apply elem_of_singleton.
Qed.

(** ** Uniqueness of [slack_id] *)

Lemma users_end_request (before after : World) :
  users (end_request before after) = users after.
Proof. done. Qed.

Lemma submissions_end_request (before after : World) :
  submissions (end_request before after) = submissions after.
Proof. done. Qed.

Lemma slack_id_update_rows (u : User) (rows : list User) :
  slack_id <$> (update_row u <$> rows) = slack_id <$> rows.
Proof.
  rewrite <- list_fmap_compose. apply list_fmap_ext. intros i r _. simpl.
  apply update_row_slack_id.
Qed.

Lemma handle_slack_id_unique (w : World) (r : request) :
  slack_id_unique w → slack_id_unique (handle r w).
Proof.
  unfold slack_id_unique, handle. rewrite users_end_request.
  intros Hw. destruct r as [payload|s|k|k payload|a].
  - rewrite create_user_eq. case_decide as Hdup; simpl; [done|].
    rewrite fmap_app. apply NoDup_app. split; [done|]. split.
    + intros x Hx [->|[]%elem_of_nil]%elem_of_cons. by apply Hdup.
    + apply NoDup_singleton.
  - by rewrite get_user_by_slack_eq.
  - by rewrite users_get_user.
  - destruct (users_update_user k payload w) as [->|(u & _ & ->)]; [done|].
    by rewrite slack_id_update_rows.
  - by rewrite users_submissions_count.
Qed.

(** C8.  [create_user] with a [slack_id] that a row already carries raises
    the store's [IntegrityError] and leaves both tables as they were; every
    handler preserves "no two rows of [users] share a [slack_id]"; hence the
    property holds in every world reachable from the empty database through
    the five handlers. *)
Theorem slack_id_unique_invariant :
  (∀ (w : World) (payload : UserCreate.t),
     UserCreate.slack_id payload ∈ slack_id <$> users w →
     ∃ w' : World,
       create_user payload w = (Raise IntegrityError, w') ∧
       users w' = users w ∧ submissions w' = submissions w) ∧
  (∀ (w : World) (r : request), slack_id_unique w → slack_id_unique (handle r w)) ∧
  (∀ w : World, reachable w → slack_id_unique w).
Proof.
  split; [|split].
  - intros w payload H. eexists. by rewrite create_user_duplicate.
  - apply handle_slack_id_unique.
  - intros w Hw. induction Hw as [clk|w r _ IH].
    + apply NoDup_nil_2.
    + by apply handle_slack_id_unique.
Qed.

Lemma handle_POST_new (w : World) (payload : UserCreate.t) :
  UserCreate.slack_id payload ∉ slack_id <$> users w →
  handle (POST_users payload) w = (create_user payload w).2.
Proof.
  intros H. unfold handle, end_request, with_open_sessions.
  rewrite create_user_eq. by rewrite decide_False.
Qed.

Lemma reachable_world_U1 : reachable world_U1.
Proof.
  unfold world_U1. rewrite <- handle_POST_new by apply not_elem_of_nil.
  apply (reachable_step (init (λ n, Z.of_nat n))). apply reachable_init.
Qed.

Lemma slack_id_unique_invariant_witness :
  ("U1" ∈ slack_id <$> users world_U1) ∧
  slack_id_unique world_U1 ∧
  reachable (handle (POST_users (UserCreate.mk "U1" (Some "Bob"))) world_U1) ∧
  (∃ w' : World,
     create_user (UserCreate.mk "U1" (Some "Bob")) world_U1 = (Raise IntegrityError, w') ∧
     users w' = users world_U1 ∧ submissions w' = submissions world_U1) ∧
  slack_id_unique (handle (POST_users (UserCreate.mk "U2" None)) world_U1) ∧
  slack_id_unique (handle (POST_users (UserCreate.mk "U1" (Some "Bob"))) world_U1).
Proof.
  assert (H1 : "U1" ∈ slack_id <$> users world_U1) by apply list_elem_of_here.
  assert (H2 : slack_id_unique world_U1) by apply NoDup_singleton.
  assert (H3 : reachable (handle (POST_users (UserCreate.mk "U1" (Some "Bob"))) world_U1)).
  { apply reachable_step. exact reachable_world_U1. }
  repeat (split; [assumption|]).
  destruct slack_id_unique_invariant as (Hdup & Hstep & Hreach).
  split; [|split].
  - exact (Hdup world_U1 (UserCreate.mk "U1" (Some "Bob")) H1).
  - exact (Hstep world_U1 (POST_users (UserCreate.mk "U2" None)) H2).
  - exact (Hreach _ H3).
Defined.

(** ** Further properties of the handlers *)

(** *** Creation *)

Lemma world_U1_U2_eq :
  world_U1_U2 =
  mkWorld [mkUser 1 "U1" None (Some 0) (Some 0) (Some 0) 0 1;
           mkUser 2 "U2" (Some "Bob") (Some 0) (Some 0) (Some 0) 2 3]
    [] ∅ (λ n, Z.of_nat n) 4.
Proof. unfold world_U1_U2. rewrite world_U1_eq. by rewrite create_user_eq. Qed.

Lemma fits_int64_2 : fits_int64 2.
Proof. by apply fits_int64_small. Qed.

Lemma get_user_Return (k : Z) (w w' : World) (u : User) :
  get_user k w = (Return u, w') ↔
  fits_int64 k ∧ row_by_user_id k (users w) = Some u ∧ w' = w.
Proof.
  destruct (decide (fits_int64 k)) as [Hk|Hk].
  - rewrite get_user_eq by done. destruct (row_by_user_id k (users w)) as [u0|].
    + split; [by intros [= -> ->]|by intros (_ & [= ->] & ->)].
    + split; [by intros [=]|by intros (_ & [=] & _)].
  - rewrite get_user_overflow by done. split; [by intros [=]|by intros (? & _)].
Qed.

Lemma get_user_by_slack_Return (s : string) (w w' : World) (u : User) :
  get_user_by_slack s w = (Return u, w') ↔
  first_by_slack_id s (users w) = Some u ∧ w' = w.
Proof.
  rewrite get_user_by_slack_eq. destruct (first_by_slack_id s (users w)) as [u0|].
  - split; [by intros [= -> ->]|by intros [[= ->] ->]].
  - split; [by intros [=]|by intros [[=] _]].
Qed.

Lemma first_by_slack_id_Some (s : string) (rows : list User) (u : User) :
  first_by_slack_id s rows = Some u → u ∈ rows ∧ slack_id u = s.
Proof. apply (head_filter_Some slack_id). Qed.

(** X1.  A user created under a [slack_id] that is not in use, in a table
    whose next key fits in a signed 64-bit integer, can be fetched by the
    [user_id] the response carries: [get_user] returns the record
    [create_user] returned, and that [user_id] is larger than the key of
    every row the table already had. *)
Theorem create_user_then_get_user (w : World) (payload : UserCreate.t) :
  UserCreate.slack_id payload ∉ slack_id <$> users w →
  fits_int64 (next_user_id (users w)) →
  ∃ (u : User) (w1 : World),
    create_user payload w = (Return u, w1) ∧
    get_user (user_id u) w1 = (Return u, w1) ∧
    (∀ r : User, r ∈ users w → user_id r < user_id u) ∧
    length (users w1) = S (length (users w)).
Proof.
  intros Hnew Hfit. eexists _, _. split.
  { rewrite create_user_eq. by rewrite decide_False. }
  simpl. split; [|split].
  - rewrite get_user_eq by done. simpl.
    change (next_user_id (users w)) with (user_id (created_row payload w)).
    rewrite row_by_user_id_snoc_fresh; [done|apply next_user_id_fresh].
  - intros r Hr. unfold next_user_id.
    assert (Hin : user_id r ∈ user_id <$> users w) by (by apply list_elem_of_fmap_2).
    destruct (user_id <$> users w) as [|k0 ks]; [by apply elem_of_nil in Hin|].
    destruct (foldl_max_ge ks k0) as [H0 H1].
    apply elem_of_cons in Hin as [->|Hin]; [lia|]. apply H1 in Hin. lia.
  - rewrite length_app. simpl. lia.
Qed.

Lemma create_user_then_get_user_witness :
  (UserCreate.slack_id (UserCreate.mk "U2" (Some "Bob")) ∉ slack_id <$> users world_U1) ∧
  fits_int64 (next_user_id (users world_U1)) ∧
  ∃ (u : User) (w1 : World),
    create_user (UserCreate.mk "U2" (Some "Bob")) world_U1 = (Return u, w1) ∧
    get_user (user_id u) w1 = (Return u, w1) ∧
    (∀ r : User, r ∈ users world_U1 → user_id r < user_id u) ∧
    length (users w1) = S (length (users world_U1)).
Proof.
  assert (H : UserCreate.slack_id (UserCreate.mk "U2" (Some "Bob")) ∉
              slack_id <$> users world_U1).
  { intros [H|H%elem_of_nil]%elem_of_cons; [discriminate H|done]. }
  split; [exact H|]. split; [exact fits_int64_2|].
  exact (create_user_then_get_user world_U1 (UserCreate.mk "U2" (Some "Bob")) H
           fits_int64_2).
Defined.

Lemma head_filter_snoc_Some {A} (P : A → Prop) `{∀ a, Decision (P a)}
    (l : list A) (x a : A) :
  head (filter P l) = Some a → head (filter P (l ++ [x])%list) = Some a.
Proof. intros Ha. rewrite filter_app. rewrite head_app, Ha. done. Qed.

(** X2.  [create_user], whether it inserts or fails on a duplicate, leaves
    every user that was already stored as it was: both lookups of an existing
    user return after the call what they returned before. *)
Theorem create_user_keeps_existing_users
    (w : World) (payload : UserCreate.t) (u : User) :
  (∀ k : Z, get_user k w = (Return u, w) →
     get_user k (create_user payload w).2 = (Return u, (create_user payload w).2)) ∧
  (∀ s : string, get_user_by_slack s w = (Return u, w) →
     get_user_by_slack s (create_user payload w).2 =
     (Return u, (create_user payload w).2)).
Proof.
  split.
  - intros k (Hfit & Hk & _)%get_user_Return. apply get_user_Return.
    split; [done|]. split; [|done].
    destruct (users_create_user payload w) as [->| ->]; [done|].
    unfold row_by_user_id in *. by rewrite (head_filter_snoc_Some _ _ _ u).
  - intros s [Hs _]%get_user_by_slack_Return. apply get_user_by_slack_Return.
    split; [|done].
    destruct (users_create_user payload w) as [->| ->]; [done|].
    unfold first_by_slack_id in *. by rewrite (head_filter_snoc_Some _ _ _ u).
Qed.

Lemma get_1_world_U1 :
  get_user 1 world_U1 =
  (Return (mkUser 1 "U1" None (Some 0) (Some 0) (Some 0) 0 1), world_U1).
Proof. rewrite world_U1_eq. by rewrite (get_user_eq _ _ fits_int64_1). Qed.

Lemma get_1_world_U1_U2 :
  get_user 1 world_U1_U2 =
  (Return (mkUser 1 "U1" None (Some 0) (Some 0) (Some 0) 0 1), world_U1_U2).
Proof. rewrite world_U1_U2_eq. by rewrite (get_user_eq _ _ fits_int64_1). Qed.

Lemma get_2_world_U1_U2 :
  get_user 2 world_U1_U2 =
  (Return (mkUser 2 "U2" (Some "Bob") (Some 0) (Some 0) (Some 0) 2 3), world_U1_U2).
Proof. rewrite world_U1_U2_eq. by rewrite (get_user_eq _ _ fits_int64_2). Qed.

Lemma get_U2_world_U1_U2 :
  get_user_by_slack "U2" world_U1_U2 =
  (Return (mkUser 2 "U2" (Some "Bob") (Some 0) (Some 0) (Some 0) 2 3), world_U1_U2).
Proof. rewrite world_U1_U2_eq. by rewrite get_user_by_slack_eq. Qed.

Lemma create_user_keeps_existing_users_witness :
  get_user 1 world_U1 =
    (Return (mkUser 1 "U1" None (Some 0) (Some 0) (Some 0) 0 1), world_U1) ∧
  get_user_by_slack "U1" world_U1 =
    (Return (mkUser 1 "U1" None (Some 0) (Some 0) (Some 0) 0 1), world_U1) ∧
  get_user 1 world_U1_U2 =
    (Return (mkUser 1 "U1" None (Some 0) (Some 0) (Some 0) 0 1), world_U1_U2) ∧
  get_user_by_slack "U1" world_U1_U2 =
    (Return (mkUser 1 "U1" None (Some 0) (Some 0) (Some 0) 0 1), world_U1_U2).
Proof.
  assert (H2 : get_user_by_slack "U1" world_U1 =
    (Return (mkUser 1 "U1" None (Some 0) (Some 0) (Some 0) 0 1), world_U1)).
  { rewrite world_U1_eq. by rewrite get_user_by_slack_eq. }
  split; [exact get_1_world_U1|]. split; [exact H2|].
  destruct (create_user_keeps_existing_users world_U1
              (UserCreate.mk "U2" (Some "Bob"))
              (mkUser 1 "U1" None (Some 0) (Some 0) (Some 0) 0 1)) as [Hk Hs].
  split; [exact (Hk 1 get_1_world_U1)|exact (Hs "U1" H2)].
Defined.

(** *** Lookups *)

(** X3.  A lookup never returns another user than the one asked for, nor a
    record the table does not hold: what [get_user] returns carries the
    [user_id] of the request, what [get_user_by_slack] returns carries the
    [slack_id] of the request, and both are rows of [users]. *)
Theorem lookups_return_stored_rows (w w' : World) (u : User) :
  (∀ k : Z, get_user k w = (Return u, w') → u ∈ users w ∧ user_id u = k) ∧
  (∀ s : string, get_user_by_slack s w = (Return u, w') →
     u ∈ users w ∧ slack_id u = s).
Proof.
  split.
  - intros k (_ & Hk & _)%get_user_Return. by apply row_by_user_id_Some.
  - intros s [Hs _]%get_user_by_slack_Return. by apply first_by_slack_id_Some.
Qed.

Lemma lookups_return_stored_rows_witness :
  get_user 2 world_U1_U2 =
    (Return (mkUser 2 "U2" (Some "Bob") (Some 0) (Some 0) (Some 0) 2 3), world_U1_U2) ∧
  get_user_by_slack "U2" world_U1_U2 =
    (Return (mkUser 2 "U2" (Some "Bob") (Some 0) (Some 0) (Some 0) 2 3), world_U1_U2) ∧
  (mkUser 2 "U2" (Some "Bob") (Some 0) (Some 0) (Some 0) 2 3 ∈ users world_U1_U2 ∧
   user_id (mkUser 2 "U2" (Some "Bob") (Some 0) (Some 0) (Some 0) 2 3) = 2) ∧
  (mkUser 2 "U2" (Some "Bob") (Some 0) (Some 0) (Some 0) 2 3 ∈ users world_U1_U2 ∧
   slack_id (mkUser 2 "U2" (Some "Bob") (Some 0) (Some 0) (Some 0) 2 3) = "U2").
Proof.
  split; [exact get_2_world_U1_U2|]. split; [exact get_U2_world_U1_U2|].
  destruct (lookups_return_stored_rows world_U1_U2 world_U1_U2
              (mkUser 2 "U2" (Some "Bob") (Some 0) (Some 0) (Some 0) 2 3)) as [Hk Hs].
  split; [exact (Hk 2 get_2_world_U1_U2)|exact (Hs "U2" get_U2_world_U1_U2)].
Defined.

(** *** Updates *)

Lemma first_by_slack_id_update (u : User) (s : string) (rows : list User) :
  first_by_slack_id s (update_row u <$> rows) = update_row u <$> first_by_slack_id s rows.
Proof.
  unfold first_by_slack_id.
  rewrite (filter_fmap_key slack_id) by apply update_row_slack_id.
  apply head_fmap.
Qed.

(** X4.  [update_user] on the key [k] leaves every user stored under another
    key as it was: both lookups of such a user return after the call what
    they returned before, whether the update succeeds or raises. *)
Theorem update_user_keeps_other_users
    (w : World) (k : Z) (payload : UserUpdate.t) (r : User) :
  user_id r ≠ k →
  (∀ k' : Z, get_user k' w = (Return r, w) →
     get_user k' (update_user k payload w).2 =
     (Return r, (update_user k payload w).2)) ∧
  (∀ s : string, get_user_by_slack s w = (Return r, w) →
     get_user_by_slack s (update_user k payload w).2 =
     (Return r, (update_user k payload w).2)).
Proof.
  intros Hr. split.
  - intros k' (Hfit & Hk' & _)%get_user_Return. apply get_user_Return.
    split; [done|]. split; [|done].
    destruct (users_update_user k payload w) as [->|(u & Hu & ->)]; [done|].
    rewrite row_by_user_id_update, Hk'. simpl.
    by rewrite update_row_other by congruence.
  - intros s [Hs _]%get_user_by_slack_Return.
    apply get_user_by_slack_Return. split; [|done].
    destruct (users_update_user k payload w) as [->|(u & Hu & ->)]; [done|].
    rewrite first_by_slack_id_update, Hs. simpl.
    by rewrite update_row_other by congruence.
Qed.

Lemma update_user_keeps_other_users_witness :
  (user_id (mkUser 1 "U1" None (Some 0) (Some 0) (Some 0) 0 1) ≠ 2) ∧
  get_user 1 world_U1_U2 =
    (Return (mkUser 1 "U1" None (Some 0) (Some 0) (Some 0) 0 1), world_U1_U2) ∧
  get_user 1 (update_user 2 (UserUpdate.mk (Some (Some 50)) None None None) world_U1_U2).2 =
    (Return (mkUser 1 "U1" None (Some 0) (Some 0) (Some 0) 0 1),
     (update_user 2 (UserUpdate.mk (Some (Some 50)) None None None) world_U1_U2).2).
Proof.
  assert (H0 : user_id (mkUser 1 "U1" None (Some 0) (Some 0) (Some 0) 0 1) ≠ 2)
    by (intros H; discriminate H).
  split; [exact H0|]. split; [exact get_1_world_U1_U2|].
  exact (proj1 (update_user_keeps_other_users world_U1_U2 2
                  (UserUpdate.mk (Some (Some 50)) None None None) _ H0)
           1 get_1_world_U1_U2).
Defined.

Lemma NoDup_fmap_elem_eq {A B} (f : A → B) (l : list A) (a b : A) :
  NoDup (f <$> l) → a ∈ l → b ∈ l → f a = f b → a = b.
Proof.
  induction l as [|x l IH]; [by intros _ ?%elem_of_nil|].
  rewrite fmap_cons, NoDup_cons. intros [Hx Hl].
  intros [->|Ha]%elem_of_cons [->|Hb]%elem_of_cons Hab; [done| | |by apply IH].
  - destruct Hx. rewrite Hab. by apply list_elem_of_fmap_2.
  - destruct Hx. rewrite <- Hab. by apply list_elem_of_fmap_2.
Qed.

Lemma first_by_slack_id_unique (rows : list User) (u : User) :
  NoDup (slack_id <$> rows) → u ∈ rows → first_by_slack_id (slack_id u) rows = Some u.
Proof.
  intros Hnd Hu.
  destruct (first_by_slack_id (slack_id u) rows) as [r|] eqn:Hr.
  - apply first_by_slack_id_Some in Hr as [Hin Hs].
    f_equal. by apply (NoDup_fmap_elem_eq slack_id rows).
  - unfold first_by_slack_id in Hr. apply head_None in Hr.
    assert (Hin : u ∈ filter (λ r, slack_id r = slack_id u) rows)
      by (by apply list_elem_of_filter).
    rewrite Hr in Hin. by apply elem_of_nil in Hin.
Qed.

(** X5.  After a successful [update_user] both lookups see the update: where
    no two rows share a [slack_id], [get_user] with the key and
    [get_user_by_slack] with the user's [slack_id] both return the record
    that [update_user] returned. *)
Theorem update_user_then_lookups
    (w w' : World) (k : Z) (payload : UserUpdate.t) (u' : User) :
  slack_id_unique w →
  update_user k payload w = (Return u', w') →
  get_user k w' = (Return u', w') ∧
  get_user_by_slack (slack_id u') w' = (Return u', w').
Proof.
  intros Hnd (Hfit & u & Hu & -> & ->)%update_user_Return.
  apply row_by_user_id_Some in Hu as Hin. destruct Hin as [Hin Hk]. split.
  - apply get_user_Return. split; [done|]. split; [|done]. simpl.
    by rewrite row_by_user_id_update, Hu; simpl; rewrite update_row_patched.
  - apply get_user_by_slack_Return. split; [|done]. simpl.
    rewrite first_by_slack_id_update, first_by_slack_id_unique by done. simpl.
    by rewrite update_row_patched.
Qed.

Lemma slack_id_unique_world_U1_U2 : slack_id_unique world_U1_U2.
Proof.
  unfold slack_id_unique. rewrite world_U1_U2_eq. simpl.
  apply NoDup_cons. split; [|apply NoDup_singleton].
  intros [H|H%elem_of_nil]%elem_of_cons; [discriminate H|done].
Qed.

Lemma update_2_world_U1_U2 :
  update_user 2 (UserUpdate.mk (Some (Some 50)) None None None) world_U1_U2 =
  (Return (mkUser 2 "U2" (Some "Bob") (Some 50) (Some 0) (Some 0) 2 4),
   mkWorld [mkUser 1 "U1" None (Some 0) (Some 0) (Some 0) 0 1;
            mkUser 2 "U2" (Some "Bob") (Some 50) (Some 0) (Some 0) 2 4]
     [] ∅ (λ n, Z.of_nat n) 5).
Proof.
  rewrite world_U1_U2_eq. by rewrite (update_user_eq _ _ _ fits_int64_2 fits_50).
Qed.

Lemma update_user_then_lookups_witness :
  slack_id_unique world_U1_U2 ∧
  update_user 2 (UserUpdate.mk (Some (Some 50)) None None None) world_U1_U2 =
    (Return (mkUser 2 "U2" (Some "Bob") (Some 50) (Some 0) (Some 0) 2 4),
     mkWorld [mkUser 1 "U1" None (Some 0) (Some 0) (Some 0) 0 1;
              mkUser 2 "U2" (Some "Bob") (Some 50) (Some 0) (Some 0) 2 4]
       [] ∅ (λ n, Z.of_nat n) 5) ∧
  get_user 2
    (mkWorld [mkUser 1 "U1" None (Some 0) (Some 0) (Some 0) 0 1;
              mkUser 2 "U2" (Some "Bob") (Some 50) (Some 0) (Some 0) 2 4]
       [] ∅ (λ n, Z.of_nat n) 5) =
    (Return (mkUser 2 "U2" (Some "Bob") (Some 50) (Some 0) (Some 0) 2 4),
     mkWorld [mkUser 1 "U1" None (Some 0) (Some 0) (Some 0) 0 1;
              mkUser 2 "U2" (Some "Bob") (Some 50) (Some 0) (Some 0) 2 4]
       [] ∅ (λ n, Z.of_nat n) 5) ∧
  get_user_by_slack "U2"
    (mkWorld [mkUser 1 "U1" None (Some 0) (Some 0) (Some 0) 0 1;
              mkUser 2 "U2" (Some "Bob") (Some 50) (Some 0) (Some 0) 2 4]
       [] ∅ (λ n, Z.of_nat n) 5) =
    (Return (mkUser 2 "U2" (Some "Bob") (Some 50) (Some 0) (Some 0) 2 4),
     mkWorld [mkUser 1 "U1" None (Some 0) (Some 0) (Some 0) 0 1;
              mkUser 2 "U2" (Some "Bob") (Some 50) (Some 0) (Some 0) 2 4]
       [] ∅ (λ n, Z.of_nat n) 5).
Proof.
  split; [exact slack_id_unique_world_U1_U2|]. split; [exact update_2_world_U1_U2|].
  exact (update_user_then_lookups world_U1_U2 _ 2 _ _
           slack_id_unique_world_U1_U2 update_2_world_U1_U2).
Defined.

(** X6.  A [PUT] whose body sets no field still succeeds on an existing
    user, stored under a key that fits in a signed 64-bit integer, and still
    takes a clock reading: the returned record is the stored one with
    [updated_at] replaced by that reading, and nothing else differs. *)
Theorem update_user_empty_payload (w : World) (k : Z) (u : User) :
  fits_int64 k →
  row_by_user_id k (users w) = Some u →
  ∃ w' : World,
    update_user k empty_payload w = (Return (set_updated_at u (clock w (ticks w))), w') ∧
    row_by_user_id k (users w') = Some (set_updated_at u (clock w (ticks w))) ∧
    ticks w' = S (ticks w).
Proof.
  intros Hfit Hu.
  assert (Hp : payload_fits empty_payload) by done.
  eexists. split; [by rewrite update_user_eq, Hu|]. simpl.
  split; [|done].
  rewrite row_by_user_id_update, Hu. simpl. by rewrite update_row_patched.
Qed.

Lemma update_user_empty_payload_witness :
  fits_int64 1 ∧
  row_by_user_id 1 (users world_U1) =
    Some (mkUser 1 "U1" None (Some 0) (Some 0) (Some 0) 0 1) ∧
  ∃ w' : World,
    update_user 1 empty_payload world_U1 =
      (Return (mkUser 1 "U1" None (Some 0) (Some 0) (Some 0) 0 2), w') ∧
    row_by_user_id 1 (users w') =
      Some (mkUser 1 "U1" None (Some 0) (Some 0) (Some 0) 0 2) ∧
    ticks w' = 3%nat.
Proof.
  split; [exact fits_int64_1|]. split; [exact row_1_world_U1|].
  exact (update_user_empty_payload world_U1 1 _ fits_int64_1 row_1_world_U1).
Defined.

Lemma patched_patched (u : User) (p1 p2 : UserUpdate.t) (t1 t2 : datetime) :
  patched (patched u p1 t1) p2 t2 = patched u (merge_payload p1 p2) t2.
Proof.
  unfold patched, merge_payload, later_field. simpl.
  f_equal.
  - by destruct (UserUpdate.display_name p2).
  - by destruct (UserUpdate.total_xp p2).
  - by destruct (UserUpdate.current_streak p2).
  - by destruct (UserUpdate.longest_streak p2).
Qed.

Lemma update_row_update_row (u1 u2 r : User) :
  user_id u1 = user_id u2 → update_row u2 (update_row u1 r) = update_row u2 r.
Proof.
  intros H12. unfold update_row.
  destruct (decide (user_id r = user_id u1)) as [Heq|Hne].
  - simpl. by rewrite !decide_True by congruence.
  - done.
Qed.

Lemma later_field_fits (f1 f2 : option (option Z)) :
  field_fits f1 → field_fits f2 → field_fits (later_field f1 f2).
Proof. by destruct f2. Qed.

Lemma merge_payload_fits (p1 p2 : UserUpdate.t) :
  payload_fits p1 → payload_fits p2 → payload_fits (merge_payload p1 p2).
Proof.
  intros (A1 & B1 & C1) (A2 & B2 & C2). unfold payload_fits, merge_payload. simpl.
  split_and!; by apply later_field_fits.
Qed.

(** X7.  Two successive updates of the same existing user, with a key and
    bodies whose integers fit in a signed 64-bit integer, amount to one
    update with the two bodies merged, the later body winning on the fields
    both set: the second call returns what [update_user] with the merged body
    returns at the second clock reading, and leaves the same world. *)
Theorem update_user_twice
    (w : World) (k : Z) (p1 p2 : UserUpdate.t) (u : User) :
  fits_int64 k → payload_fits p1 → payload_fits p2 →
  row_by_user_id k (users w) = Some u →
  ∃ (u1 u2 : User) (w1 w2 : World),
    update_user k p1 w = (Return u1, w1) ∧
    update_user k p2 w1 = (Return u2, w2) ∧
    update_user k (merge_payload p1 p2) (utcnow w).2 = (Return u2, w2).
Proof.
  intros Hfit Hp1 Hp2 Hu.
  pose proof (merge_payload_fits p1 p2 Hp1 Hp2) as Hp.
  apply row_by_user_id_Some in Hu as Hk. destruct Hk as [_ Hk].
  eexists _, _, _, _. split; [by rewrite update_user_eq, Hu|].
  rewrite !update_user_eq by done. simpl.
  rewrite row_by_user_id_update, !Hu. simpl.
  rewrite update_row_patched, patched_patched.
  split; [reflexivity|]. do 2 f_equal.
  rewrite <- list_fmap_compose. apply list_fmap_ext. intros i r _. simpl.
  symmetry. by apply update_row_update_row.
Qed.

Lemma update_user_twice_witness :
  fits_int64 1 ∧
  payload_fits (UserUpdate.mk (Some (Some 50)) None None (Some (Some "Ann"))) ∧
  payload_fits (UserUpdate.mk (Some None) (Some (Some 2)) None None) ∧
  row_by_user_id 1 (users world_U1) =
    Some (mkUser 1 "U1" None (Some 0) (Some 0) (Some 0) 0 1) ∧
  ∃ (u1 u2 : User) (w1 w2 : World),
    update_user 1 (UserUpdate.mk (Some (Some 50)) None None (Some (Some "Ann"))) world_U1 =
      (Return u1, w1) ∧
    update_user 1 (UserUpdate.mk (Some None) (Some (Some 2)) None None) w1 =
      (Return u2, w2) ∧
    update_user 1
      (merge_payload (UserUpdate.mk (Some (Some 50)) None None (Some (Some "Ann")))
                     (UserUpdate.mk (Some None) (Some (Some 2)) None None))
      (utcnow world_U1).2 = (Return u2, w2).
Proof.
  assert (H1 : payload_fits
                 (UserUpdate.mk (Some (Some 50)) None None (Some (Some "Ann")))).
  { fits. }
  assert (H2 : payload_fits (UserUpdate.mk (Some None) (Some (Some 2)) None None)).
  { fits. }
  split; [exact fits_int64_1|]. split; [exact H1|]. split; [exact H2|].
  split; [exact row_1_world_U1|].
  exact (update_user_twice world_U1 1 _ _ _ fits_int64_1 H1 H2 row_1_world_U1).
Defined.

(** *** Repeated creation *)

(** X8.  [POST /users] is not repeatable: whatever the first call did, the
    same request sent again raises [IntegrityError] and leaves both tables
    as the first call left them. *)
Theorem create_user_again_fails (w : World) (payload : UserCreate.t) :
  ∃ w2 : World,
    create_user payload (create_user payload w).2 = (Raise IntegrityError, w2) ∧
    users w2 = users (create_user payload w).2 ∧
    submissions w2 = submissions (create_user payload w).2.
Proof.
  assert (Hdup : UserCreate.slack_id payload ∈
                 slack_id <$> users (create_user payload w).2).
  { rewrite create_user_eq. case_decide as Hdup; [done|]. simpl.
    rewrite fmap_app. apply elem_of_app. right. apply list_elem_of_here. }
  eexists. split; [by apply create_user_duplicate|done].
Qed.

(** *** Sessions *)

(** X14.  Every run of a handler that returns, or raises not-found, has
    closed the session it opened: whenever one of the five handlers returns
    or raises the 404 error, the open sessions are what they were before the
    call. *)
Theorem handlers_close_session (w : World) :
  (∀ k, finished (get_user k w).1 →
     open_sessions (get_user k w).2 = open_sessions w) ∧
  (∀ s, finished (get_user_by_slack s w).1 →
     open_sessions (get_user_by_slack s w).2 = open_sessions w) ∧
  (∀ a, finished (submissions_count a w).1 →
     open_sessions (submissions_count a w).2 = open_sessions w) ∧
  (∀ k payload, finished (update_user k payload w).1 →
     open_sessions (update_user k payload w).2 = open_sessions w) ∧
  (∀ payload, finished (create_user payload w).1 →
     open_sessions (create_user payload w).2 = open_sessions w).
Proof.
  split_and!.
  - intros k. destruct (decide (fits_int64 k)).
    + by rewrite get_user_eq.
    + by rewrite get_user_overflow.
  - intros s. by rewrite get_user_by_slack_eq.
  - intros a. destruct (decide (fits_int64 a)).
    + by rewrite submissions_count_eq.
    + by rewrite submissions_count_overflow.
  - intros k payload. destruct (decide (fits_int64 k)).
    + rewrite update_user_cases by done.
      destruct (row_by_user_id k (users w)); [|done]. simpl. by case_decide.
    + by rewrite update_user_overflow.
  - intros payload. rewrite create_user_eq. by case_decide.
Qed.

Lemma handlers_close_session_witness :
  finished (get_user 1 world_U1).1 ∧
  finished (update_user 7 empty_payload world_U1).1 ∧
  finished (create_user (UserCreate.mk "U2" None) world_U1).1 ∧
  open_sessions (get_user 1 world_U1).2 = open_sessions world_U1 ∧
  open_sessions (update_user 7 empty_payload world_U1).2 = open_sessions world_U1 ∧
  open_sessions (create_user (UserCreate.mk "U2" None) world_U1).2 =
    open_sessions world_U1.
Proof.
  assert (H1 : finished (get_user 1 world_U1).1) by (by rewrite get_1_world_U1).
  assert (H2 : finished (update_user 7 empty_payload world_U1).1).
  { rewrite world_U1_eq. rewrite update_user_eq; [done|by apply fits_int64_small|done]. }
  assert (H3 : finished (create_user (UserCreate.mk "U2" None) world_U1).1).
  { rewrite world_U1_eq. by rewrite create_user_eq. }
  split; [exact H1|]. split; [exact H2|]. split; [exact H3|].
  destruct (handlers_close_session world_U1) as (Hg & _ & _ & Hu & Hc).
  split; [exact (Hg 1 H1)|]. split; [exact (Hu 7 empty_payload H2)|].
  exact (Hc (UserCreate.mk "U2" None) H3).
Defined.

(** *** What no request does *)

Lemma submissions_handle (r : request) (w : World) :
  submissions (handle r w) = submissions w.
Proof.
  unfold handle. rewrite submissions_end_request.
  destruct r as [payload|s|k|k payload|a].
  - apply submissions_create_user.
  - by rewrite get_user_by_slack_eq.
  - apply submissions_get_user.
  - apply submissions_update_user.
  - apply submissions_submissions_count.
Qed.

Lemma handle_all_cons (r : request) (rs : list request) (w : World) :
  handle_all (r :: rs) w = handle_all rs (handle r w).
Proof. done. Qed.

(** X9.  No sequence of requests inserts, changes or deletes a submission:
    the table [submissions] after the requests is the table before, so
    [submissions_count] answers every author as before. *)
Theorem requests_keep_submissions (rs : list request) (w : World) (a : Z) :
  submissions (handle_all rs w) = submissions w ∧
  (submissions_count a (handle_all rs w)).1 = (submissions_count a w).1.
Proof.
  assert (H : submissions (handle_all rs w) = submissions w).
  { revert w. induction rs as [|r rs IH]; intros w; [done|].
    by rewrite handle_all_cons, IH, submissions_handle. }
  split; [done|]. destruct (decide (fits_int64 a)).
  - rewrite !submissions_count_eq by done. simpl. by rewrite H.
  - by rewrite !submissions_count_overflow.
Qed.

(** X10.  Starting from the empty database the five handlers never create a
    submission: in every reachable world [submissions] is empty and
    [submissions_count] returns 0 for every author that fits in a signed
    64-bit integer. *)
Theorem reachable_no_submissions (w : World) (a : Z) :
  reachable w →
  fits_int64 a →
  submissions w = [] ∧ submissions_count a w = (Return 0%nat, w).
Proof.
  intros Hw Ha.
  assert (H : submissions w = []).
  { induction Hw as [clk|w r _ IH]; [done|]. by rewrite submissions_handle. }
  split; [done|]. rewrite submissions_count_eq by done. by rewrite H.
Qed.

Lemma reachable_world_U1_U2 : reachable world_U1_U2.
Proof.
  unfold world_U1_U2. rewrite <- handle_POST_new.
  - apply reachable_step. exact reachable_world_U1.
  - intros [H|H%elem_of_nil]%elem_of_cons; [discriminate H|done].
Qed.

Lemma reachable_no_submissions_witness :
  reachable world_U1_U2 ∧
  fits_int64 1 ∧
  submissions world_U1_U2 = [] ∧
  submissions_count 1 world_U1_U2 = (Return 0%nat, world_U1_U2).
Proof.
  split; [exact reachable_world_U1_U2|]. split; [exact fits_int64_1|].
  exact (reachable_no_submissions world_U1_U2 1 reachable_world_U1_U2 fits_int64_1).
Defined.


Lemma users_handle (r : request) (w : World) :
  users (handle r w) = users w ∨
  (∃ payload, users (handle r w) = (users w ++ [created_row payload w])%list) ∨
  (∃ u, users (handle r w) = update_row u <$> users w).
Proof.
  unfold handle. rewrite users_end_request.
  destruct r as [payload|s|k|k payload|a].
  - destruct (users_create_user payload w) as [->| ->]; [by left|].
    right. left. by exists payload.
  - left. by rewrite get_user_by_slack_eq.
  - left. apply users_get_user.
  - destruct (users_update_user k payload w) as [->|(u & _ & ->)]; [by left|].
    right. right. by exists u.
  - left. apply users_submissions_count.
Qed.



(** *** Primary keys *)

Lemma foldl_max_seqZ (k0 : Z) (i : nat) :
  foldl Z.max k0 (seqZ (k0 + 1) (Z.of_nat i)) = k0 + Z.of_nat i.
Proof.
  induction i as [|i IH].
  - simpl. lia.
  - rewrite seqZ_S, foldl_app, IH. simpl. lia.
Qed.

Lemma next_user_id_in_sequence (rows : list User) :
  keys_in_sequence rows → next_user_id rows = 1 + Z.of_nat (length rows).
Proof.
  unfold keys_in_sequence, next_user_id. intros ->.
  destruct (length rows) as [|n]; [done|].
  rewrite seqZ_cons by lia.
  replace (Z.pred (Z.of_nat (S n))) with (Z.of_nat n) by lia.
  change (Z.succ 1) with (1 + 1). rewrite foldl_max_seqZ. lia.
Qed.

Lemma keys_in_sequence_handle (r : request) (w : World) :
  keys_in_sequence (users w) → keys_in_sequence (users (handle r w)).
Proof.
  intros Hw.
  destruct (users_handle r w) as [->|[(payload & ->)|(u & ->)]]; [done| |].
  - unfold keys_in_sequence in *.
    rewrite fmap_app, length_app, Hw. simpl.
    rewrite next_user_id_in_sequence by done.
    rewrite Nat.add_1_r. by rewrite seqZ_S.
  - unfold keys_in_sequence in *. rewrite length_fmap, <- Hw.
    rewrite <- list_fmap_compose. apply list_fmap_ext. intros i r' _. simpl.
    apply update_row_user_id.
Qed.

Lemma keys_in_sequence_reachable (w : World) :
  reachable w → keys_in_sequence (users w).
Proof.
  intros Hw. induction Hw as [clk|w r _ IH]; [done|].
  by apply keys_in_sequence_handle.
Qed.

Lemma user_id_NoDup_reachable (w : World) :
  reachable w → NoDup (user_id <$> users w).
Proof.
  intros Hw. rewrite (keys_in_sequence_reachable w Hw). apply NoDup_seqZ.
Qed.

(** X12.  Starting from the empty database the primary keys are handed out
    in sequence: in every reachable world the [user_id] column of [users]
    reads 1, 2, ..., n in the order of insertion; so no two users share a
    [user_id], and the next user created receives n + 1. *)
Theorem reachable_keys_in_sequence (w : World) :
  reachable w →
  user_id <$> users w = seqZ 1 (Z.of_nat (length (users w))) ∧
  NoDup (user_id <$> users w) ∧
  next_user_id (users w) = 1 + Z.of_nat (length (users w)).
Proof.
  intros Hw. pose proof (keys_in_sequence_reachable w Hw) as H.
  split; [exact H|]. split.
  - rewrite H. apply NoDup_seqZ.
  - by apply next_user_id_in_sequence.
Qed.

Lemma reachable_keys_in_sequence_witness :
  reachable world_U1_U2 ∧
  user_id <$> users world_U1_U2 = seqZ 1 (Z.of_nat (length (users world_U1_U2))) ∧
  NoDup (user_id <$> users world_U1_U2) ∧
  next_user_id (users world_U1_U2) = 1 + Z.of_nat (length (users world_U1_U2)).
Proof.
  split; [exact reachable_world_U1_U2|].
  exact (reachable_keys_in_sequence world_U1_U2 reachable_world_U1_U2).
Defined.

Lemma row_by_user_id_unique (rows : list User) (u : User) :
  NoDup (user_id <$> rows) → u ∈ rows → row_by_user_id (user_id u) rows = Some u.
Proof.
  intros Hnd Hu.
  destruct (row_by_user_id (user_id u) rows) as [r|] eqn:Hr.
  - apply row_by_user_id_Some in Hr as [Hin Hk].
    f_equal. by apply (NoDup_fmap_elem_eq user_id rows).
  - unfold row_by_user_id in Hr. apply head_None in Hr.
    assert (Hin : u ∈ filter (λ r, user_id r = user_id u) rows)
      by (by apply list_elem_of_filter).
    rewrite Hr in Hin. by apply elem_of_nil in Hin.
Qed.

Lemma reachable_slack_id_unique (w : World) : reachable w → slack_id_unique w.
Proof.
  intros Hw. induction Hw as [clk|w r _ IH].
  - apply NoDup_nil_2.
  - by apply handle_slack_id_unique.
Qed.

(** X13.  In every world reachable from the empty database the two lookups
    agree: the user that [get_user_by_slack] returns is the one [get_user]
    returns for its [user_id], as long as that key fits in a signed 64-bit
    integer, and the user that [get_user] returns is the one
    [get_user_by_slack] returns for its [slack_id]. *)
Theorem reachable_lookups_agree (w : World) (u : User) :
  reachable w →
  (∀ s : string, get_user_by_slack s w = (Return u, w) →
     fits_int64 (user_id u) →
     get_user (user_id u) w = (Return u, w)) ∧
  (∀ k : Z, get_user k w = (Return u, w) →
     get_user_by_slack (slack_id u) w = (Return u, w)).
Proof.
  intros Hw. split.
  - intros s [[Hin _]%first_by_slack_id_Some _]%get_user_by_slack_Return Hfit.
    apply get_user_Return. split; [done|]. split; [|done].
    apply row_by_user_id_unique; [|done].
    by apply user_id_NoDup_reachable.
  - intros k (_ & [Hin _]%row_by_user_id_Some & _)%get_user_Return.
    apply get_user_by_slack_Return. split; [|done].
    apply first_by_slack_id_unique; [|done].
    by apply reachable_slack_id_unique.
Qed.

Lemma reachable_lookups_agree_witness :
  reachable world_U1_U2 ∧
  get_user_by_slack "U2" world_U1_U2 =
    (Return (mkUser 2 "U2" (Some "Bob") (Some 0) (Some 0) (Some 0) 2 3), world_U1_U2) ∧
  fits_int64 2 ∧
  get_user 2 world_U1_U2 =
    (Return (mkUser 2 "U2" (Some "Bob") (Some 0) (Some 0) (Some 0) 2 3), world_U1_U2).
Proof.
  split; [exact reachable_world_U1_U2|]. split; [exact get_U2_world_U1_U2|].
  split; [exact fits_int64_2|].
  exact (proj1 (reachable_lookups_agree world_U1_U2 _ reachable_world_U1_U2)
           "U2" get_U2_world_U1_U2 fits_int64_2).
Defined.

(** *** Exceptions *)

Lemma row_by_user_id_None (k : Z) (rows : list User) :
  row_by_user_id k rows = None ↔ k ∉ user_id <$> rows.
Proof.
  split.
  - intros Hu Hin. unfold row_by_user_id in Hu. apply head_None in Hu.
    apply list_elem_of_fmap in Hin as (r & -> & Hr).
    assert (Hf : r ∈ filter (λ u, user_id u = user_id r) rows)
      by (by apply list_elem_of_filter).
    rewrite Hu in Hf. by apply elem_of_nil in Hf.
  - intros Hk. unfold row_by_user_id. by rewrite (head_filter_None user_id).
Qed.

(** X16.  The exceptions a handler can raise.  [get_user] raises the 404
    "User not found" error exactly for a key that fits in a signed 64-bit
    integer and that no row carries, and [OverflowError] exactly for a key
    that does not fit; [get_user_by_slack] raises nothing but the 404 error;
    [update_user] raises the 404 error only for a fitting key that no row
    carries, and otherwise only [OverflowError], when the key or an integer
    of the body does not fit; [create_user] raises [IntegrityError], exactly
    when the [slack_id] is in use; [submissions_count] raises
    [OverflowError], exactly when the author does not fit. *)
Theorem handler_exceptions (w : World) (e : exception) :
  (∀ k, (get_user k w).1 = Raise e ↔
     (e = HTTPException 404 "User not found" ∧ fits_int64 k ∧
      k ∉ user_id <$> users w) ∨
     (e = OverflowError ∧ ¬ fits_int64 k)) ∧
  (∀ s, (get_user_by_slack s w).1 = Raise e → e = HTTPException 404 "User not found") ∧
  (∀ k payload, (update_user k payload w).1 = Raise e →
     (e = HTTPException 404 "User not found" ∧ fits_int64 k ∧
      k ∉ user_id <$> users w) ∨
     (e = OverflowError ∧ (¬ fits_int64 k ∨ ¬ payload_fits payload))) ∧
  (∀ payload, (create_user payload w).1 = Raise e ↔
     e = IntegrityError ∧ UserCreate.slack_id payload ∈ slack_id <$> users w) ∧
  (∀ a, (submissions_count a w).1 = Raise e ↔ e = OverflowError ∧ ¬ fits_int64 a).
Proof.
  split_and!.
  - intros k. destruct (decide (fits_int64 k)) as [Hk|Hk].
    + rewrite get_user_eq by done. simpl.
      destruct (row_by_user_id k (users w)) as [u|] eqn:Hu.
      * split; [done|]. intros [(_ & _ & Hn)|(_ & Hn)]; [|done].
        apply row_by_user_id_None in Hn. congruence.
      * apply row_by_user_id_None in Hu. split.
        -- intros [= <-]. by left.
        -- intros [(-> & _)|(_ & Hn)]; done.
    + rewrite get_user_overflow by done. simpl. split.
      * intros [= <-]. by right.
      * intros [(_ & Hf & _)|(-> & _)]; done.
  - intros s. rewrite get_user_by_slack_eq. simpl.
    destruct (first_by_slack_id s (users w)); [done|]. by intros [= <-].
  - intros k payload. destruct (decide (fits_int64 k)) as [Hk|Hk].
    + rewrite update_user_cases by done.
      destruct (row_by_user_id k (users w)) as [u|] eqn:Hu.
      * simpl. case_decide as Hb; [done|]. simpl. intros [= <-].
        right. split; [done|]. right. intros Hp. apply Hb.
        by apply bound_integers_patched.
      * simpl. intros [= <-]. left. split; [done|]. split; [done|].
        by apply row_by_user_id_None.
    + rewrite update_user_overflow by done. simpl. intros [= <-].
      right. split; [done|]. by left.
  - intros payload. rewrite create_user_eq. case_decide as Hdup; simpl.
    + split; [by intros [= <-]|by intros [-> _]].
    + split; [done|by intros [_ ?]].
  - intros a. destruct (decide (fits_int64 a)) as [Ha|Ha].
    + rewrite submissions_count_eq by done. simpl. split; [done|by intros [_ ?]].
    + rewrite submissions_count_overflow by done. simpl.
      split; [by intros [= <-]|by intros [-> _]].
Qed.

Lemma handler_exceptions_witness :
  (get_user (2 ^ 63) world_U1).1 = Raise OverflowError ∧
  ¬ fits_int64 (2 ^ 63) ∧
  (update_user 7 empty_payload world_U1).1 = Raise (HTTPException 404 "User not found") ∧
  (7 ∉ user_id <$> users world_U1) ∧
  (UserCreate.slack_id (UserCreate.mk "U1" (Some "Bob")) ∈ slack_id <$> users world_U1) ∧
  (create_user (UserCreate.mk "U1" (Some "Bob")) world_U1).1 = Raise IntegrityError.
Proof.
  assert (H2 : (update_user 7 empty_payload world_U1).1 =
               Raise (HTTPException 404 "User not found")).
  { rewrite world_U1_eq. rewrite update_user_eq; [done|by apply fits_int64_small|done]. }
  assert (H3 : UserCreate.slack_id (UserCreate.mk "U1" (Some "Bob")) ∈
               slack_id <$> users world_U1) by apply list_elem_of_here.
  destruct (handler_exceptions world_U1 OverflowError) as (Hg & _ & _ & _ & _).
  destruct (handler_exceptions world_U1 IntegrityError) as (_ & _ & _ & Hc & _).
  split.
  { exact (proj2 (Hg (2 ^ 63)) (or_intror (conj eq_refl not_fits_int64_2_63))). }
  split; [exact not_fits_int64_2_63|]. split; [exact H2|].
  split; [exact not_elem_7_world_U1|]. split; [exact H3|].
  exact (proj2 (Hc (UserCreate.mk "U1" (Some "Bob"))) (conj eq_refl H3)).
Defined.
